(** * Online bagger: a shallow embedding of [online_bagger.py]

    The node keeps, for every configured topic, a deque of time-stamped
    messages trimmed to a retention window, and on request dumps the
    deques to a bag file.  This file embeds the class [OnlineBagger] as
    functions over an explicit record of its attributes and proves or
    refutes the statements of the specification about it.

    Conventions of the embedding.
    - [rospy.Time] and [rospy.Duration] are integers counting nanoseconds.
    - Python floats ([to_sec()], [req.bag_time], the ratio and the index
      arithmetic of [get_time_index]) are idealised as exact rationals;
      the exceptions Python raises (division by a zero float, indexing an
      empty deque, a missing key) are kept.
    - A method is a function [Bagger -> Result A]: it returns a value and
      the new attributes, or raises, leaving the attributes as they were
      when the exception left the method.
    - What the node reads from outside (clock, shutdown flag, the topics
      the master can resolve, whether the bag file can be opened and how
      many messages it accepts) is a record [World] passed explicitly.
    - Formatted strings are lists of fragments: the literal pieces and the
      values substituted for [%s] or converted with [str]. *)

From Stdlib Require Import ZArith QArith Qround Qminmax Lia.
From stdpp Require Import gmap strings list.

Local Open Scope string_scope.
Local Open Scope list_scope.

(** ** Data *)

(** [rospy.Time] / [rospy.Duration], in nanoseconds. *)
Definition Time := Z.
Definition Duration := Z.

(** A message: the stamp of its header when it has one, and a payload the
    node never looks into. *)
Record Msg := mkMsg { header : option Time; payload : N }.

(** An element of a deque: the tuple [(time, msg)]. *)
Definition Stamped : Type := Time * Msg.

(** An element of [self.subscriber_list]: the list
    [[topic, stream_time, status]]. *)
Record TopicEntry := mkTopic {
  topic_name : string;
  topic_stream_time : Z;      (* seconds *)
  topic_status : bool
}.

(** A formatted string. *)
Inductive Fragment :=
| Lit (s : string)
| FNum (q : Q)
| FNat (n : nat)
| FSubs (l : list TopicEntry).
Definition Text := list Fragment.

(** A [rosbag.Bag] opened for writing. *)
Record Bag := mkBag {
  bag_name : string;
  bag_entries : list (string * Msg * Time);   (* write(topic, msg, t) *)
  bag_closed : bool
}.

(** The attributes of an [OnlineBagger]. *)
Record Bagger := mkBagger {
  successful_subscription_count : nat;
  iteration_count : nat;
  streaming : bool;
  subscriber_list : list TopicEntry;
  topic_messages : gmap string (list Stamped);
  topic_list : list string;
  bag_report : option Text;
  bagger_status : option Text;
  bag : option Bag
}.

(** The outside of the node. *)
Record World := mkWorld {
  is_shutdown : bool;            (* rospy.is_shutdown() *)
  published : list string;       (* topics rostopic.get_topic_class resolves *)
  rostime : Time;                (* rospy.get_rostime() *)
  datetime : string;             (* date and time, formatted *)
  bag_openable : bool;           (* rosbag.Bag(path, 'w') succeeds *)
  bag_capacity : option nat      (* messages the file accepts; None: no limit *)
}.

(** The request of the service [BaggerCommands]. *)
Record Request := mkRequest {
  req_bag_name : option string;
  req_bag_time : option Q
}.

Inductive Exn :=
| IndexError | KeyError | ValueError | ZeroDivisionError | AttributeError | IOError.

Inductive Result (A : Type) :=
| Ok (a : A) (st : Bagger)
| Raise (e : Exn) (st : Bagger).
Arguments Ok {A} a st.
Arguments Raise {A} e st.

Definition final_state {A} (r : Result A) : Bagger :=
  match r with Ok _ st => st | Raise _ st => st end.

(** ** Attribute updates *)

Definition set_successful_subscription_count (n : nat) (b : Bagger) : Bagger :=
  mkBagger n (iteration_count b) (streaming b) (subscriber_list b)
           (topic_messages b) (topic_list b) (bag_report b) (bagger_status b) (bag b).
Definition set_iteration_count (n : nat) (b : Bagger) : Bagger :=
  mkBagger (successful_subscription_count b) n (streaming b) (subscriber_list b)
           (topic_messages b) (topic_list b) (bag_report b) (bagger_status b) (bag b).
Definition set_streaming (v : bool) (b : Bagger) : Bagger :=
  mkBagger (successful_subscription_count b) (iteration_count b) v (subscriber_list b)
           (topic_messages b) (topic_list b) (bag_report b) (bagger_status b) (bag b).
Definition set_subscriber_list (l : list TopicEntry) (b : Bagger) : Bagger :=
  mkBagger (successful_subscription_count b) (iteration_count b) (streaming b) l
           (topic_messages b) (topic_list b) (bag_report b) (bagger_status b) (bag b).
Definition set_topic_messages (m : gmap string (list Stamped)) (b : Bagger) : Bagger :=
  mkBagger (successful_subscription_count b) (iteration_count b) (streaming b)
           (subscriber_list b) m (topic_list b) (bag_report b) (bagger_status b) (bag b).
Definition set_bag_report (t : Text) (b : Bagger) : Bagger :=
  mkBagger (successful_subscription_count b) (iteration_count b) (streaming b)
           (subscriber_list b) (topic_messages b) (topic_list b) (Some t)
           (bagger_status b) (bag b).
Definition set_status (t : Text) (b : Bagger) : Bagger :=
  mkBagger (successful_subscription_count b) (iteration_count b) (streaming b)
           (subscriber_list b) (topic_messages b) (topic_list b) (bag_report b)
           (Some t) (bag b).
Definition set_bag (g : Bag) (b : Bagger) : Bagger :=
  mkBagger (successful_subscription_count b) (iteration_count b) (streaming b)
           (subscriber_list b) (topic_messages b) (topic_list b) (bag_report b)
           (bagger_status b) (Some g).

(** ** The monad of methods *)

Definition M (A : Type) : Type := Bagger -> Result A.

Definition ret {A} (a : A) : M A := fun st => Ok a st.
Definition raise {A} (e : Exn) : M A := fun st => Raise e st.
Definition bind {A B} (m : M A) (k : A -> M B) : M B :=
  fun st => match m st with
            | Ok a st' => k a st'
            | Raise e st' => Raise e st'
            end.
Definition update (f : Bagger -> Bagger) : M unit := fun st => Ok tt (f st).
Definition read {A} (f : Bagger -> A) : M A := fun st => Ok (f st) st.

Declare Scope bagger_scope.
Delimit Scope bagger_scope with bagger.
Notation "x <~ m ;; k" := (bind m (fun x => k))
  (at level 100, m at next level, right associativity) : bagger_scope.
Notation "m ;;; k" := (bind m (fun _ => k))
  (at level 100, right associativity) : bagger_scope.
Local Open Scope bagger_scope.

(** [for x in l: body(x)] *)
Fixpoint for_each {A} (body : A -> M unit) (l : list A) : M unit :=
  match l with
  | [] => ret tt
  | x :: l' => body x ;;; for_each body l'
  end.

(** ** Python primitives *)

(** [deque[0]] and [deque[-1]]. *)
Definition deque_first (dq : list Stamped) : option Stamped := head dq.
Definition deque_last (dq : list Stamped) : option Stamped := last dq.

(** [Duration.to_sec()]. *)
Definition to_sec (d : Duration) : Q := Qmake d 1000000000.

(** [rospy.Duration(secs)]. *)
Definition duration_of_secs (s : Z) : Duration := (s * 1000000000)%Z.

(** [a / b] on floats. *)
Definition py_div (a b : Q) : M Q :=
  if Qeq_bool b 0 then raise ZeroDivisionError else ret (a / b)%Q.

(** [min(a, b)]: the first argument unless the second is smaller. *)
Definition py_min (a b : Q) : Q := if Qle_bool a b then a else b.

(** [int(x)]: truncation towards zero. *)
Definition py_int (x : Q) : Z := Z.quot (Qnum x) (Zpos (Qden x)).

(** [l.index(x)]. *)
Fixpoint list_index (x : string) (l : list string) : option nat :=
  match l with
  | [] => None
  | y :: l' => if String.eqb y x then Some 0%nat else S <$> list_index x l'
  end.

(** [SliceableDeque.__getitem__(slice(i, None))]: [itertools.islice]
    refuses a negative start. *)
Definition slice_from (i : Z) (dq : list Stamped) : M (list Stamped) :=
  if (i <? 0)%Z then raise ValueError else ret (drop (Z.to_nat i) dq).

(** [self.topic_messages[topic]] *)
Definition deque_of (topic : string) : M (list Stamped) :=
  fun st => match topic_messages st !! topic with
            | Some dq => Ok dq st
            | None => Raise KeyError st
            end.

(** Mutation of the deque held under [topic]. *)
Definition store_deque (topic : string) (dq : list Stamped) : M unit :=
  update (fun st => set_topic_messages (<[topic := dq]> (topic_messages st)) st).

(** ** The methods of [OnlineBagger] *)

(** [make_dicts], run by [__init__] on the topics of the configuration:
    an entry without stream time gets the default, every topic gets an
    empty deque and the status [False]. *)
Definition make_dicts (stream_time : Z) (config : list (string * option Z)) : Bagger :=
  let entry (c : string * option Z) :=
    mkTopic (fst c) (default stream_time (snd c)) false in
  mkBagger 0 0 true (entry <$> config)
           (foldl (fun m c => <[fst c := []]> m) ∅ config)
           (fst <$> config) None None None.

(** [rostopic.get_topic_class(topic)[1] is not None] *)
Definition resolvable (w : World) (topic : string) : bool :=
  existsb (String.eqb topic) (published w).

(** The loop of [subscribe]: the entries after it, and how many were
    subscribed by it. *)
Fixpoint subscribe_entries (w : World) (l : list TopicEntry) : list TopicEntry * nat :=
  match l with
  | [] => ([], 0%nat)
  | t :: l' =>
      let (l'', n) := subscribe_entries w l' in
      if negb (topic_status t) && resolvable w (topic_name t)
      then (mkTopic (topic_name t) (topic_stream_time t) true :: l'', S n)
      else (t :: l'', n)
  end.

Definition subscribe (w : World) : M unit :=
  update (fun st =>
    let (l, n) := subscribe_entries w (subscriber_list st) in
    set_successful_subscription_count (successful_subscription_count st + n)
      (set_subscriber_list l st)).

(** [dq[-1][0] - dq[0][0]] *)
Definition deque_duration (dq : list Stamped) : option Duration :=
  match deque_last dq, deque_first dq with
  | Some newest, Some oldest => Some (fst newest - fst oldest)%Z
  | _, _ => None
  end.

Definition get_topic_duration (topic : string) : M Duration :=
  dq <~ deque_of topic ;;
  match deque_duration dq with
  | Some d => ret d
  | None => raise IndexError
  end.

Definition get_header_time (w : World) (msg : Msg) : Time :=
  match header msg with
  | Some stamp => stamp
  | None => rostime w
  end.

Definition get_topic_message_count (topic : string) : M nat :=
  dq <~ deque_of topic ;; ret (length dq).

Definition report_requested (requested_seconds : Q) : Text :=
  [Lit "The requested "; FNum requested_seconds; Lit " seconds were bagged"].

Definition report_only (topic_duration requested_seconds : Q) : Text :=
  [Lit "Only "; FNum topic_duration; Lit " seconds of the request ";
   FNum requested_seconds;
   Lit " seconds were available, all             messages were bagged"].

Definition report_all : Text := [Lit "All messages were bagged"].

Definition get_time_index (topic : string) (requested_seconds : Q) : M Z :=
  d <~ get_topic_duration topic ;;
  let topic_duration := to_sec d in
  ratio <~ py_div requested_seconds topic_duration ;;
  count <~ get_topic_message_count topic ;;
  let index := py_int (inject_Z (Z.of_nat count) * (1 - py_min ratio 1))%Q in
  update (set_bag_report (report_requested requested_seconds)) ;;;
  (if (index =? 0)%Z
   then update (set_bag_report (report_only topic_duration requested_seconds))
   else ret tt) ;;;
  ret index.

(** The [while] loop of [bagger_callback] on the deque of the topic:
    [popleft] as long as the duration exceeds the limit and the node is
    not shut down.  On the left, the exception and the deque it left. *)
Fixpoint popleft_while (running : bool) (limit time_diff : Duration)
    (dq : list Stamped) : Exn * list Stamped + list Stamped :=
  if (limit <? time_diff)%Z && running then
    match dq with
    | [] => inl (IndexError, [])
    | _ :: dq' =>
        match deque_duration dq' with
        | Some d => popleft_while running limit d dq'
        | None => inl (IndexError, dq')
        end
    end
  else inr dq.

Definition trim (w : World) (topic : string) (limit time_diff : Duration) : M unit :=
  dq <~ deque_of topic ;;
  match popleft_while (negb (is_shutdown w)) limit time_diff dq with
  | inr dq' => store_deque topic dq'
  | inl (e, dq') => store_deque topic dq' ;;; raise e
  end.

Definition lookup_or_raise {A} (e : Exn) (o : option A) : M A :=
  match o with Some a => ret a | None => raise e end.

Definition bagger_callback (w : World) (msg : Msg) (topic : string) : M unit :=
  s <~ read streaming ;;
  if negb s then ret tt else
  update (fun st => set_iteration_count (S (iteration_count st)) st) ;;;
  let time := get_header_time w msg in
  dq <~ deque_of topic ;;
  store_deque topic (dq ++ [(time, msg)]) ;;;
  time_diff <~ get_topic_duration topic ;;
  tl <~ read topic_list ;;
  index <~ lookup_or_raise ValueError (list_index topic tl) ;;
  subs <~ read subscriber_list ;;
  entry <~ lookup_or_raise IndexError (subs !! index) ;;
  trim w topic (duration_of_secs (topic_stream_time entry)) time_diff ;;;
  subscribe w.

Definition get_total_message_count : M nat :=
  read (fun st => map_fold (fun _ dq total => (total + length dq)%nat) 0%nat
                           (topic_messages st)).

(** [bag_name in ('', None, False)] *)
Definition no_bag_name (n : option string) : bool :=
  match n with
  | None => true
  | Some s => String.eqb s ""
  end.

Definition set_bag_directory (w : World) (name : option string) : M unit :=
  let bag_name := if no_bag_name name then datetime w else default "" name in
  if bag_openable w
  then update (set_bag (mkBag bag_name [] false))
  else raise IOError.

Definition set_bagger_status : M unit :=
  subs <~ read subscriber_list ;;
  total <~ get_total_message_count ;;
  update (set_status [Lit "Subscriber List: "; FSubs subs;
                      Lit " Message Count: "; FNat total]).

(** [self.bag.write(topic, msg, t=time)] *)
Definition bag_accepts (w : World) (g : Bag) : bool :=
  match bag_capacity w with
  | None => true
  | Some c => (length (bag_entries g) <? c)%nat
  end.

Definition bag_write (w : World) (topic : string) (msg : Msg) (t : Time) : M unit :=
  fun st =>
    match bag st with
    | None => Raise AttributeError st
    | Some g =>
        if bag_closed g then Raise ValueError st
        else if bag_accepts w g
        then Ok tt (set_bag (mkBag (bag_name g)
                                   (bag_entries g ++ [(topic, msg, t)]) false) st)
        else Raise IOError st
    end.

Definition bag_close : M unit :=
  fun st =>
    match bag st with
    | None => Raise AttributeError st
    | Some g => Ok tt (set_bag (mkBag (bag_name g) (bag_entries g) true) st)
    end.

(** [req.bag_time in (0, 0.0, None)] *)
Definition bag_everything (t : option Q) : bool :=
  match t with
  | None => true
  | Some d => Qeq_bool d 0
  end.

(** The index of the slice of a topic, lines 309 to 317: everything when
    no duration was asked, [get_time_index] otherwise. *)
Definition dump_index (req : Request) (topic : string) : M Z :=
  match req_bag_time req with
  | Some requested_seconds =>
      if bag_everything (req_bag_time req)
      then update (set_bag_report report_all) ;;; ret 0%Z
      else get_time_index topic requested_seconds
  | None => update (set_bag_report report_all) ;;; ret 0%Z
  end.

(** The body of the loop of [start_bagging] over [self.subscriber_list]. *)
Definition bag_topic (w : World) (req : Request) (entry : TopicEntry) : M unit :=
  if negb (topic_status entry) then ret tt else
  let topic := topic_name entry in
  bag_index <~ dump_index req topic ;;
  dq <~ deque_of topic ;;
  msgs <~ slice_from bag_index dq ;;
  for_each (fun m : Stamped => bag_write w topic (snd m) (fst m)) msgs ;;;
  store_deque topic [].

Definition return_status : M Text :=
  s <~ read bagger_status ;; lookup_or_raise AttributeError s.

Definition start_bagging (w : World) (req : Request) : M Text :=
  update (set_streaming false) ;;;
  set_bag_directory w (req_bag_name req) ;;;
  set_bagger_status ;;;
  subs <~ read subscriber_list ;;
  for_each (bag_topic w req) subs ;;;
  bag_close ;;;
  update (set_streaming true) ;;;
  return_status.

(** ** Messages delivered while a dump is running

    The callbacks of the subscribers may be run between any two steps of
    [start_bagging].  [traffic] gives, for every such point, the messages
    delivered there. *)

Definition Delivery : Type := World * Msg * string.

Definition deliver (d : Delivery) : M unit :=
  bagger_callback (fst (fst d)) (snd (fst d)) (snd d).

Inductive DumpPoint :=
| AfterGateClosed
| AfterBagOpened
| AfterStatus
| BeforeTopic (i : nat)
| BeforeClose
| BeforeGateOpened.

Fixpoint bag_topics_under_traffic (w : World) (req : Request)
    (traffic : DumpPoint -> list Delivery) (i : nat) (l : list TopicEntry) : M unit :=
  match l with
  | [] => ret tt
  | entry :: l' =>
      for_each deliver (traffic (BeforeTopic i)) ;;;
      bag_topic w req entry ;;;
      bag_topics_under_traffic w req traffic (S i) l'
  end.

Definition start_bagging_under_traffic (w : World) (req : Request)
    (traffic : DumpPoint -> list Delivery) : M Text :=
  update (set_streaming false) ;;;
  for_each deliver (traffic AfterGateClosed) ;;;
  set_bag_directory w (req_bag_name req) ;;;
  for_each deliver (traffic AfterBagOpened) ;;;
  set_bagger_status ;;;
  for_each deliver (traffic AfterStatus) ;;;
  subs <~ read subscriber_list ;;
  bag_topics_under_traffic w req traffic 0 subs ;;;
  for_each deliver (traffic BeforeClose) ;;;
  bag_close ;;;
  for_each deliver (traffic BeforeGateOpened) ;;;
  update (set_streaming true) ;;;
  return_status.

(** ** The resolver as the specification words it

    [ratio = d / total], [fraction_to_drop = 1 - min(ratio, 1)],
    [offset = floor(message_count * fraction_to_drop)]. *)
Definition resolver_offset (message_count : nat) (d total : Q) : Z :=
  let ratio := (d / total)%Q in
  let fraction_to_drop := (1 - Qmin ratio 1)%Q in
  Qfloor (inject_Z (Z.of_nat message_count) * fraction_to_drop)%Q.

(** ** What the specification asks of a response *)

(** A text names a topic when a subscriber list printed in it has an
    entry of that name. *)
Definition text_names_topic (topic : string) (t : Text) : bool :=
  existsb (fun f => match f with
                    | FSubs l => existsb (fun e => String.eqb (topic_name e) topic) l
                    | _ => false
                    end) t.

(** [part] occurs in [whole]. *)
Definition text_contains (part whole : Text) : Prop :=
  exists pre post : Text, whole = pre ++ part ++ post.

(** The messages of a deque as [bag.write] records them for [topic]. *)
Definition written_as (topic : string) (dq : list Stamped) : list (string * Msg * Time) :=
  (fun m : Stamped => (topic, snd m, fst m)) <$> dq.

(** The stamped tuple [bagger_callback] appends for a delivery. *)
Definition appended (d : World * Msg) : Stamped := (get_header_time d.1 d.2, d.2).

(** The text [set_bagger_status] builds in a state. *)
Definition status_text (st : Bagger) : Text :=
  [Lit "Subscriber List: "; FSubs (subscriber_list st); Lit " Message Count: ";
   FNat (map_fold (fun _ dq total => (total + length dq)%nat) 0%nat (topic_messages st))].

(** The state in which the loop of a dump starts. *)
Definition dump_start (w : World) (req : Request) (st : Bagger) : Bagger :=
  let name := if no_bag_name (req_bag_name req) then datetime w
              else default "" (req_bag_name req) in
  set_status (status_text st) (set_bag (mkBag name [] false) (set_streaming false st)).

Definition closed_bag (g : Bag) : Bag := mkBag (bag_name g) (bag_entries g) true.

(** ** Vocabulary of the proofs *)

(** [m] leaves [proj] as it found it, whether it returns or raises. *)
Definition preserves {A B} (proj : Bagger -> B) (m : M A) : Prop :=
  forall st, proj (final_state (m st)) = proj st.

(** [proj] does not read the attribute a method writes. *)
Definition ignores_bag_report {B} (proj : Bagger -> B) : Prop :=
  forall t st, proj (set_bag_report t st) = proj st.
Definition ignores_bag {B} (proj : Bagger -> B) : Prop :=
  forall g st, proj (set_bag g st) = proj st.
Definition ignores_status {B} (proj : Bagger -> B) : Prop :=
  forall t st, proj (set_status t st) = proj st.

(** Two methods that do the same whenever the gate is closed. *)
Definition same_when_closed {A} (m1 m2 : M A) : Prop :=
  forall st, streaming st = false -> m1 st = m2 st.

(** [m] keeps the invariant [I], whether it returns or raises. *)
Definition maintains {A} (I : Bagger -> Prop) (m : M A) : Prop :=
  forall st, I st -> I (final_state (m st)).

(** Every message in the bag is on a topic satisfying [P]. *)
Definition bag_only (P : string -> Prop) (st : Bagger) : Prop :=
  forall g, bag st = Some g -> Forall (fun x => P x.1.1) (bag_entries g).

(** ** The rest of the class *)

(** [subscribe_loop]: [subscribe] is run until a subscription succeeded
    or the node is shut down.  The loop need not end: [fuel] bounds the
    iterations of the model, and [None] says the bound was reached.
    [worlds i] is the outside during iteration [i]. *)
Fixpoint subscribe_loop (fuel : nat) (worlds : nat -> World) (i : nat)
    (st : Bagger) : option (Result unit) :=
  match fuel with
  | O => None
  | S fuel' =>
      if (successful_subscription_count st =? 0)%nat && negb (is_shutdown (worlds i))
      then match subscribe (worlds i) st with
           | Ok _ st' => subscribe_loop fuel' worlds (S i) st'
           | Raise e st' => Some (Raise e st')
           end
      else Some (Ok tt st)
  end.

(** [__init__], once [get_params] has read the topics and the default
    stream time from the parameter server. *)
Definition init (fuel : nat) (worlds : nat -> World) (stream_time : Z)
    (config : list (string * option Z)) : option (Result unit) :=
  subscribe_loop fuel worlds 0 (make_dicts stream_time config).

(** Every [step]-th element of an iterator, starting with the first;
    [skip] elements are passed over before the next one is taken. *)
Fixpoint stride_from {A} (step skip : nat) (l : list A) : list A :=
  match l with
  | [] => []
  | x :: l' =>
      match skip with
      | O => x :: stride_from step (step - 1) l'
      | S skip' => stride_from step skip' l'
      end
  end.

(** [itertools.islice(l, start, stop, step)]: [None] stands for the
    beginning, the end and a step of one; a negative start or stop and a
    step below one are refused. *)
Definition islice {A} (l : list A) (start stop step : option Z) : Exn + list A :=
  let below (lo : Z) (o : option Z) :=
    match o with Some z => (z <? lo)%Z | None => false end in
  if below 0%Z start || below 0%Z stop || below 1%Z step then inl ValueError
  else
    let first := Z.to_nat (default 0%Z start) in
    let window :=
      match stop with
      | Some e => take (Z.to_nat e - first) (drop first l)
      | None => drop first l
      end in
    inr (stride_from (Z.to_nat (default 1%Z step)) 0 window).

(** [deque.__getitem__(i)]: a negative index counts from the end. *)
Definition deque_getitem {A} (l : list A) (i : Z) : Exn + A :=
  let n := Z.of_nat (length l) in
  let j := if (i <? 0)%Z then (i + n)%Z else i in
  if (j <? 0)%Z || (n <=? j)%Z then inl IndexError
  else match l !! Z.to_nat j with
       | Some x => inr x
       | None => inl IndexError
       end.

(** The argument of [SliceableDeque.__getitem__] and what it returns. *)
Inductive Index :=
| AtIndex (i : Z)
| AtSlice (start stop step : option Z).

Inductive Item (A : Type) :=
| Element (a : A)
| Deque (l : list A).
Arguments Element {A} a.
Arguments Deque {A} l.

Definition sliceable_getitem {A} (l : list A) (index : Index) : Exn + Item A :=
  match index with
  | AtSlice start stop step =>
      match islice l start stop step with
      | inr l' => inr (Deque l')
      | inl e => inl e
      end
  | AtIndex i =>
      match deque_getitem l i with
      | inr x => inr (Element x)
      | inl e => inl e
      end
  end.

(** ** Vocabulary of the further properties *)

(** The lists and the dictionary of [make_dicts] agree: [topic_list]
    holds the names of [subscriber_list], in order, and every name has a
    deque. *)
Definition well_formed (st : Bagger) : Prop :=
  topic_list st = topic_name <$> subscriber_list st /\
  forall topic, topic ∈ topic_list st -> is_Some (topic_messages st !! topic).

(** What of the configuration two states share: the topics in their
    order, their stream times, and the keys of the dictionary. *)
Definition configuration (st : Bagger)
    : list string * list string * list Z * gset string :=
  (topic_list st, topic_name <$> subscriber_list st,
   topic_stream_time <$> subscriber_list st, dom (topic_messages st)).

(** The entries of a subscriber list that are subscribed. *)
Definition subscribed (l : list TopicEntry) : list TopicEntry :=
  filter (fun e => topic_status e = true) l.

(** [self.successful_subscription_count] counts the subscribed entries. *)
Definition count_agrees (st : Bagger) : Prop :=
  successful_subscription_count st = length (subscribed (subscriber_list st)).

(** The number of buffered messages, as [get_total_message_count] sums it. *)
Definition total_messages (m : gmap string (list Stamped)) : nat :=
  map_fold (fun _ dq total => (total + length dq)%nat) 0%nat m.

(** The stamps of a deque do not decrease. *)
Definition time_ordered (dq : list Stamped) : Prop :=
  forall i j x y, dq !! i = Some x -> dq !! j = Some y -> (i <= j)%nat -> (fst x <= fst y)%Z.

(** The messages of a deque not older than [limit], counted from the
    newest stamp. *)
Definition within_window (limit : Duration) (newest : Time) (dq : list Stamped)
    : list Stamped :=
  filter (fun m : Stamped => (newest - fst m <= limit)%Z) dq.

(** What a dump of everything writes for the subscribed entries, in
    their order: each deque whole, oldest message first. *)
Definition exported_all (m : gmap string (list Stamped)) (l : list TopicEntry)
    : list (string * Msg * Time) :=
  concat ((fun e => written_as (topic_name e) (default [] (m !! topic_name e)))
          <$> subscribed l).

(** An invariant that does not read the bookkeeping attributes. *)
Definition bookkeeping_stable (I : Bagger -> Prop) : Prop :=
  (forall n st, I st -> I (set_iteration_count n st)) /\
  (forall v st, I st -> I (set_streaming v st)) /\
  (forall t st, I st -> I (set_bag_report t st)) /\
  (forall t st, I st -> I (set_status t st)) /\
  (forall g st, I st -> I (set_bag g st)).

(** An invariant that does not mind what the deque of a topic holds, as
    long as the topic has one. *)
Definition buffer_stable (I : Bagger -> Prop) : Prop :=
  forall st topic dq,
    I st -> is_Some (topic_messages st !! topic) ->
    I (set_topic_messages (<[topic := dq]> (topic_messages st)) st).

(** An invariant that does not mind a deque being emptied. *)
Definition clearing_stable (I : Bagger -> Prop) : Prop :=
  forall st topic,
    I st -> is_Some (topic_messages st !! topic) ->
    I (set_topic_messages (<[topic := []]> (topic_messages st)) st).

(** [topic] has a deque. *)
Definition has_deque (topic : string) (st : Bagger) : Prop :=
  is_Some (topic_messages st !! topic).

(** An entry after [subscribe] ran in the world [w]. *)
Definition subscribed_now (w : World) (e : TopicEntry) : TopicEntry :=
  mkTopic (topic_name e) (topic_stream_time e)
          (topic_status e || resolvable w (topic_name e)).

(** Every deque of [st] is the one of [st0], or empty. *)
Definition only_emptied (st0 st : Bagger) : Prop :=
  forall topic, topic_messages st !! topic = topic_messages st0 !! topic \/
                topic_messages st !! topic = Some [].

(** ** Scenarios used as concrete inputs *)

Module Scenario.

Definition sec (n : Z) : Time := (n * 1000000000)%Z.

(** A message stamped at [n] seconds. *)
Definition stamped_msg (n : Z) : Msg := mkMsg (Some (sec n)) 7%N.

(** The master resolves [/odom] only; the bag file can be written. *)
Definition world : World :=
  mkWorld false ["/odom"] (sec 100) "2017-03-04-10:20:30" true None.

(** The same, on a file system that refuses the bag file. *)
Definition world_readonly : World :=
  mkWorld false ["/odom"] (sec 100) "2017-03-04-10:20:30" false None.

(** The same, with a bag file that accepts a single message. *)
Definition world_small_disk : World :=
  mkWorld false ["/odom"] (sec 100) "2017-03-04-10:20:30" true (Some 1%nat).

(** The node configured with [/odom] (10 seconds) and [/imu] (default,
    30 seconds), after one round of [subscribe]: [/imu] is not
    published, so it stays unsubscribed. *)
Definition started : Bagger :=
  final_state (subscribe world (make_dicts 30 [("/odom", Some 10%Z); ("/imu", None)])).

(** [/odom] messages stamped at the given seconds arrive in turn. *)
Definition fed (stamps : list Z) : Bagger :=
  final_state
    (for_each (fun n => bagger_callback world (stamped_msg n) "/odom") stamps started).

Definition request (seconds : Q) : Request := mkRequest (Some "snap") (Some seconds).

Definition closed_gate : Bagger := set_streaming false (fed [0; 1; 2; 3]%Z).

End Scenario.

(** ** Further scenarios *)

Module Fixture.

(** Nothing is published. *)
Definition quiet : World :=
  mkWorld false [] (Scenario.sec 100) "2017-03-04-10:20:30" true None.

(** The node is shut down. *)
Definition down : World :=
  mkWorld true ["/odom"] (Scenario.sec 100) "2017-03-04-10:20:30" true None.

(** [/odom] is published from the third iteration on. *)
Definition late (j : nat) : World := if (j <? 2)%nat then quiet else Scenario.world.

Definition always (w : World) (j : nat) : World := w.

Definition config : list (string * option Z) := [("/odom", Some 10%Z); ("/imu", None)].

(** The node of [Scenario], before any [subscribe]. *)
Definition configured : Bagger := make_dicts 30 config.

(** A node whose only topic has a negative stream time, subscribed. *)
Definition negative : Bagger :=
  final_state (subscribe Scenario.world (make_dicts 30 [("/odom", Some (-5)%Z)])).

Definition odom : TopicEntry := mkTopic "/odom" 10 true.

Definition at_sec (n : Z) : Stamped := (Scenario.sec n, Scenario.stamped_msg n).

(** The node of [Scenario] after four messages and a dump of everything. *)
Definition dumped : Bagger :=
  final_state (start_bagging Scenario.world (Scenario.request 0)
                             (Scenario.fed [0; 1; 2; 3]%Z)).

End Fixture.

(** ** Frame rules: what a method leaves alone *)

Section Frame.
Context {B : Type} (proj : Bagger -> B).

Lemma preserves_ret {A} (a : A) : preserves proj (ret a).
Proof. by intros st. Qed.

Lemma preserves_raise {A} (e : Exn) : preserves proj (@raise A e).
Proof. by intros st. Qed.

Lemma preserves_read {A} (f : Bagger -> A) : preserves proj (read f).
Proof. by intros st. Qed.

Lemma preserves_update (f : Bagger -> Bagger) :
  (forall st, proj (f st) = proj st) -> preserves proj (update f).
Proof. intros Hf st. apply Hf. Qed.

Lemma preserves_bind {A C} (m : M A) (k : A -> M C) :
  preserves proj m -> (forall a, preserves proj (k a)) -> preserves proj (bind m k).
Proof.
  intros Hm Hk st. unfold bind. specialize (Hm st).
  destruct (m st) as [a st'|e st']; simpl in *; [|done].
  by rewrite Hk.
Qed.

Lemma preserves_for_each {A} (body : A -> M unit) (l : list A) :
  (forall x, preserves proj (body x)) -> preserves proj (for_each body l).
Proof.
  intros Hbody. induction l as [|x l IH]; simpl.
  - apply preserves_ret.
  - apply preserves_bind; auto.
Qed.

Lemma preserves_lookup_or_raise {A} (e : Exn) (o : option A) :
  preserves proj (lookup_or_raise e o).
Proof. destruct o; [apply preserves_ret | apply preserves_raise]. Qed.

Lemma preserves_deque_of (topic : string) : preserves proj (deque_of topic).
Proof. intros st. unfold deque_of. by destruct (topic_messages st !! topic). Qed.

Lemma preserves_py_div (a b : Q) : preserves proj (py_div a b).
Proof. unfold py_div. destruct (Qeq_bool b 0); [apply preserves_raise | apply preserves_ret]. Qed.

Lemma preserves_slice_from (i : Z) (dq : list Stamped) : preserves proj (slice_from i dq).
Proof. unfold slice_from. destruct (i <? 0)%Z; [apply preserves_raise | apply preserves_ret]. Qed.

Lemma preserves_get_topic_duration (topic : string) :
  preserves proj (get_topic_duration topic).
Proof.
  unfold get_topic_duration. apply preserves_bind; [apply preserves_deque_of|].
  intros dq. destruct (deque_duration dq); [apply preserves_ret | apply preserves_raise].
Qed.

Lemma preserves_get_topic_message_count (topic : string) :
  preserves proj (get_topic_message_count topic).
Proof.
  unfold get_topic_message_count.
  apply preserves_bind; [apply preserves_deque_of | intros; apply preserves_ret].
Qed.

Lemma preserves_get_time_index (topic : string) (d : Q) :
  ignores_bag_report proj -> preserves proj (get_time_index topic d).
Proof.
  intros Hrep. unfold get_time_index.
  apply preserves_bind; [apply preserves_get_topic_duration | intros dur].
  apply preserves_bind; [apply preserves_py_div | intros ratio].
  apply preserves_bind; [apply preserves_get_topic_message_count | intros count].
  apply preserves_bind; [apply preserves_update; intros; apply Hrep | intros _].
  apply preserves_bind; [|intros; apply preserves_ret].
  case_match; [apply preserves_update; intros; apply Hrep | apply preserves_ret].
Qed.

Lemma preserves_bag_write (w : World) (topic : string) (msg : Msg) (t : Time) :
  ignores_bag proj -> preserves proj (bag_write w topic msg t).
Proof.
  intros Hbag st. unfold bag_write.
  destruct (bag st) as [g|]; [|done].
  destruct (bag_closed g); [done|].
  destruct (bag_accepts w g); [apply Hbag | done].
Qed.

Lemma preserves_bag_close : ignores_bag proj -> preserves proj bag_close.
Proof.
  intros Hbag st. unfold bag_close.
  destruct (bag st) as [g|]; [apply Hbag | done].
Qed.

Lemma preserves_set_bag_directory (w : World) (name : option string) :
  ignores_bag proj -> preserves proj (set_bag_directory w name).
Proof.
  intros Hbag. unfold set_bag_directory.
  destruct (bag_openable w);
    [apply preserves_update; intros; apply Hbag | apply preserves_raise].
Qed.

Lemma preserves_set_bagger_status : ignores_status proj -> preserves proj set_bagger_status.
Proof.
  intros Hst. unfold set_bagger_status.
  apply preserves_bind; [apply preserves_read | intros subs].
  apply preserves_bind; [apply preserves_read | intros total].
  apply preserves_update; intros; apply Hst.
Qed.

Lemma preserves_dump_index (req : Request) (topic : string) :
  ignores_bag_report proj -> preserves proj (dump_index req topic).
Proof.
  intros Hrep. unfold dump_index.
  destruct (req_bag_time req) as [d|].
  - destruct (bag_everything (Some d)).
    + apply preserves_bind; [apply preserves_update; intros; apply Hrep|].
      intros; apply preserves_ret.
    + by apply preserves_get_time_index.
  - apply preserves_bind; [apply preserves_update; intros; apply Hrep|].
    intros; apply preserves_ret.
Qed.

(** The loop body of a dump writes the bag, the report, and the deque
    of its own topic. *)
Lemma preserves_bag_topic (w : World) (req : Request) (entry : TopicEntry) :
  ignores_bag proj -> ignores_bag_report proj ->
  (topic_status entry = true ->
   forall dq st, proj (set_topic_messages (<[topic_name entry := dq]> (topic_messages st)) st)
                 = proj st) ->
  preserves proj (bag_topic w req entry).
Proof.
  intros Hbag Hrep Hdq. unfold bag_topic.
  destruct (topic_status entry) eqn:Hs; simpl; [|apply preserves_ret].
  apply preserves_bind; [by apply preserves_dump_index | intros index].
  apply preserves_bind; [apply preserves_deque_of | intros dq].
  apply preserves_bind; [apply preserves_slice_from | intros msgs].
  apply preserves_bind.
  - apply preserves_for_each. intros m. by apply preserves_bag_write.
  - intros _. apply preserves_update. intros st. by apply Hdq.
Qed.

End Frame.

(** ** Durations of deques *)

Lemma deque_duration_single (x : Stamped) : deque_duration [x] = Some 0%Z.
Proof. unfold deque_duration; simpl. f_equal. lia. Qed.

Lemma deque_duration_ends (oldest newest : Stamped) (mid : list Stamped) :
  deque_duration (oldest :: mid ++ [newest]) = Some (fst newest - fst oldest)%Z.
Proof.
  unfold deque_duration, deque_last, deque_first.
  change (oldest :: mid ++ [newest]) with ((oldest :: mid) ++ [newest]).
  by rewrite last_snoc.
Qed.

Lemma deque_duration_cons (x : Stamped) (dq : list Stamped) :
  exists d, deque_duration (x :: dq) = Some d.
Proof.
  destruct dq as [|y dq _] using rev_ind.
  - eexists. apply deque_duration_single.
  - eexists. apply deque_duration_ends.
Qed.

Lemma get_topic_duration_eq (st : Bagger) (topic : string) (dq : list Stamped) :
  topic_messages st !! topic = Some dq ->
  get_topic_duration topic st =
  match deque_duration dq with
  | Some d => Ok d st
  | None => Raise IndexError st
  end.
Proof.
  intros Hdq. unfold get_topic_duration, bind, deque_of. rewrite Hdq.
  by destruct (deque_duration dq).
Qed.

(** ** Rational arithmetic of the resolver *)

Lemma py_int_floor (x : Q) : (0 <= x)%Q -> py_int x = Qfloor x.
Proof.
  destruct x as [n p]. unfold Qle, py_int, Qfloor; simpl. intros Hn.
  apply Z.quot_div_nonneg; lia.
Qed.

Lemma py_min_Qmin (a b : Q) : (py_min a b == Qmin a b)%Q.
Proof.
  unfold py_min. destruct (Qle_bool a b) eqn:Hle.
  - apply Qle_bool_iff in Hle. symmetry. by apply Q.min_l.
  - assert (b <= a)%Q as Hba.
    { destruct (Qlt_le_dec b a) as [Hlt|Hge]; [by apply Qlt_le_weak|].
      apply Qle_bool_iff in Hge. congruence. }
    symmetry. by apply Q.min_r.
Qed.

Lemma py_min_le_r (a b : Q) : (py_min a b <= b)%Q.
Proof. rewrite py_min_Qmin. apply Q.le_min_r. Qed.

Lemma to_sec_pos (d : Duration) : (0 < d)%Z -> (0 < to_sec d)%Q.
Proof. unfold to_sec, Qlt; simpl. lia. Qed.

Lemma to_sec_zero (d : Duration) : Qeq_bool (to_sec d) 0 = true <-> d = 0%Z.
Proof.
  rewrite Qeq_bool_iff. unfold to_sec, Qeq; simpl. lia.
Qed.

Lemma fraction_nonneg (count : nat) (ratio : Q) :
  (0 <= inject_Z (Z.of_nat count) * (1 - py_min ratio 1))%Q.
Proof.
  apply Qmult_le_0_compat.
  - change 0%Q with (inject_Z 0). rewrite <- Zle_Qle. lia.
  - pose proof (py_min_le_r ratio 1) as H.
    apply (Qplus_le_l _ _ (py_min ratio 1)). ring_simplify. exact H.
Qed.

(** The index [get_time_index] computes is the offset of the
    specification: truncation and floor agree on what is not negative,
    Python's [min] and the mathematical one are equal. *)
Lemma index_resolver_offset (count : nat) (d total : Q) :
  py_int (inject_Z (Z.of_nat count) * (1 - py_min (d / total) 1))%Q
  = resolver_offset count d total.
Proof.
  rewrite py_int_floor by apply fraction_nonneg.
  unfold resolver_offset. apply Qfloor_comp. by rewrite py_min_Qmin.
Qed.

Lemma resolver_offset_all (count : nat) (d total : Q) :
  (0 < total)%Q -> (total <= d)%Q -> resolver_offset count d total = 0%Z.
Proof.
  intros Hpos Hle. unfold resolver_offset.
  assert (1 <= d / total)%Q as Hratio.
  { apply Qle_shift_div_l; [done|]. by rewrite Qmult_1_l. }
  rewrite (Q.min_r _ _ Hratio).
  assert (inject_Z (Z.of_nat count) * (1 - 1) == 0)%Q as -> by ring.
  reflexivity.
Qed.

(** [get_time_index] on a deque whose duration is not zero. *)
Lemma get_time_index_eq (st : Bagger) (topic : string) (dq : list Stamped)
    (total : Duration) (d : Q) :
  topic_messages st !! topic = Some dq ->
  deque_duration dq = Some total ->
  total <> 0%Z ->
  let index := py_int (inject_Z (Z.of_nat (length dq)) * (1 - py_min (d / to_sec total) 1))%Q in
  get_time_index topic d st =
  Ok index (set_bag_report (if (index =? 0)%Z
                            then report_only (to_sec total) d
                            else report_requested d) st).
Proof.
  intros Hdq Hdur Hnz index. unfold get_time_index.
  unfold bind at 1. rewrite (get_topic_duration_eq _ _ _ Hdq), Hdur.
  unfold bind at 1, py_div.
  destruct (Qeq_bool (to_sec total) 0) eqn:Hz; [by apply to_sec_zero in Hz|].
  unfold ret at 1.
  unfold bind at 1, get_topic_message_count, bind at 1, deque_of. rewrite Hdq.
  unfold ret at 1. fold index.
  unfold bind, update, ret. by destruct (index =? 0)%Z.
Qed.

(** ** Claims about [get_topic_duration] and [get_time_index] *)

(** C9 (as the code has it).  [get_topic_duration] returns the stamp of
    the newest message minus the stamp of the oldest one; it raises
    (IndexError) only on an empty deque, and returns zero on a deque of
    one message. *)
Theorem get_topic_duration_result (st : Bagger) (topic : string) (dq : list Stamped) :
  topic_messages st !! topic = Some dq ->
  (dq = [] -> get_topic_duration topic st = Raise IndexError st) /\
  (forall x, dq = [x] -> get_topic_duration topic st = Ok 0%Z st) /\
  (forall oldest mid newest, dq = oldest :: mid ++ [newest] ->
     get_topic_duration topic st = Ok (fst newest - fst oldest)%Z st).
Proof.
  intros Hdq. rewrite (get_topic_duration_eq _ _ _ Hdq).
  split; [|split].
  - by intros ->.
  - intros x ->. by rewrite deque_duration_single.
  - intros oldest mid newest ->. by rewrite deque_duration_ends.
Qed.

Lemma get_topic_duration_result_witness :
  get_topic_duration "/odom" (Scenario.fed [0; 1; 2; 3]%Z)
  = Ok (Scenario.sec 3 - Scenario.sec 0)%Z (Scenario.fed [0; 1; 2; 3]%Z).
Proof.
  refine (proj2 (proj2 (get_topic_duration_result (Scenario.fed [0; 1; 2; 3]%Z) "/odom"
    [(Scenario.sec 0, Scenario.stamped_msg 0); (Scenario.sec 1, Scenario.stamped_msg 1);
     (Scenario.sec 2, Scenario.stamped_msg 2); (Scenario.sec 3, Scenario.stamped_msg 3)] _))
     (Scenario.sec 0, Scenario.stamped_msg 0)
     [(Scenario.sec 1, Scenario.stamped_msg 1); (Scenario.sec 2, Scenario.stamped_msg 2)]
     (Scenario.sec 3, Scenario.stamped_msg 3) _); vm_compute; reflexivity.
Defined.

(** C9 (as stated) fails on a deque of one message: no error, the
    duration is zero. *)
Lemma get_topic_duration_one_message :
  topic_messages (Scenario.fed [5]%Z) !! "/odom"
    = Some [(Scenario.sec 5, Scenario.stamped_msg 5)] /\
  get_topic_duration "/odom" (Scenario.fed [5]%Z) = Ok 0%Z (Scenario.fed [5]%Z).
Proof. split; vm_compute; reflexivity. Qed.



(** C2, at the failing inputs.  With one buffered message the duration
    is zero and [get_time_index] raises ZeroDivisionError; with none it
    raises IndexError.  The dump raises with it: nothing is written to
    the bag, and the deque keeps its message. *)
Theorem get_time_index_zero_duration_raises :
  get_time_index "/odom" 1 (Scenario.fed [5]%Z)
    = Raise ZeroDivisionError (Scenario.fed [5]%Z) /\
  get_time_index "/odom" 1 Scenario.started = Raise IndexError Scenario.started /\
  exists st',
    start_bagging Scenario.world (Scenario.request 1) (Scenario.fed [5]%Z)
      = Raise ZeroDivisionError st' /\
    bag st' = Some (mkBag "snap" [] false) /\
    topic_messages st' !! "/odom" = Some [(Scenario.sec 5, Scenario.stamped_msg 5)].
Proof.
  split; [vm_compute; reflexivity|].
  split; [vm_compute; reflexivity|].
  eexists. split; [vm_compute; reflexivity|].
  split; vm_compute; reflexivity.
Qed.

(** C7 (as the code has it).  For a positive request [d] on a deque of
    positive duration [total]: when [total <= d] the report is the
    partial one, naming [total]; when the index returned is positive,
    which needs [d < total], the report says the requested seconds were
    bagged. *)
Theorem get_time_index_report (st : Bagger) (topic : string)
    (dq : list Stamped) (total : Duration) (d : Q) :
  topic_messages st !! topic = Some dq ->
  deque_duration dq = Some total ->
  (0 < total)%Z ->
  (0 < d)%Q ->
  exists index st',
    get_time_index topic d st = Ok index st' /\
    ((to_sec total <= d)%Q -> bag_report st' = Some (report_only (to_sec total) d)) /\
    ((0 < index)%Z ->
       bag_report st' = Some (report_requested d) /\ (d < to_sec total)%Q).
Proof.
  intros Hdq Hdur Hpos _.
  pose proof (get_time_index_eq st topic dq total d Hdq Hdur ltac:(lia)) as Heq.
  simpl in Heq. rewrite index_resolver_offset in Heq.
  do 2 eexists. split; [exact Heq|]. split.
  - intros Hle. rewrite resolver_offset_all; [done| |done]. by apply to_sec_pos.
  - intros Hidx.
    destruct (resolver_offset (length dq) d (to_sec total) =? 0)%Z eqn:Hz; [lia|].
    split; [done|].
    destruct (Qlt_le_dec d (to_sec total)) as [Hlt|Hge]; [done|].
    rewrite resolver_offset_all in Hidx; [lia| |done]. by apply to_sec_pos.
Qed.

Lemma get_time_index_report_witness :
  exists index st',
    get_time_index "/odom" 1 (Scenario.fed [0; 1; 2; 3]%Z) = Ok index st' /\
    ((to_sec (Scenario.sec 3) <= 1)%Q ->
       bag_report st' = Some (report_only (to_sec (Scenario.sec 3)) 1)) /\
    ((0 < index)%Z ->
       bag_report st' = Some (report_requested 1) /\ (1 < to_sec (Scenario.sec 3))%Q).
Proof.
  apply (get_time_index_report (Scenario.fed [0; 1; 2; 3]%Z) "/odom"
    [(Scenario.sec 0, Scenario.stamped_msg 0); (Scenario.sec 1, Scenario.stamped_msg 1);
     (Scenario.sec 2, Scenario.stamped_msg 2); (Scenario.sec 3, Scenario.stamped_msg 3)]
    (Scenario.sec 3) 1); vm_compute; reflexivity.
Defined.

(** C7 (as stated) fails when the request equals the retained history:
    the deque holds 10 seconds, 10 seconds are requested, and the dump
    records the partial report. *)
Lemma partial_report_on_exact_request :
  deque_duration [(Scenario.sec 0, Scenario.stamped_msg 0);
                  (Scenario.sec 10, Scenario.stamped_msg 10)] = Some (Scenario.sec 10) /\
  topic_messages (Scenario.fed [0; 10]%Z) !! "/odom"
    = Some [(Scenario.sec 0, Scenario.stamped_msg 0);
            (Scenario.sec 10, Scenario.stamped_msg 10)] /\
  ~ (to_sec (Scenario.sec 10) < 10)%Q /\
  bag_report (final_state
    (start_bagging Scenario.world (Scenario.request 10) (Scenario.fed [0; 10]%Z)))
    = Some (report_only (to_sec (Scenario.sec 10)) 10).
Proof.
  split; [vm_compute; reflexivity|].
  split; [vm_compute; reflexivity|].
  split; [|vm_compute; reflexivity].
  intros H. vm_compute in H. discriminate.
Qed.

(** The partial report is also recorded when the index rounds down to
    zero although more was buffered than requested: two messages 10
    seconds apart, 6 seconds requested. *)
Example partial_report_on_rounded_index :
  get_time_index "/odom" 6 (Scenario.fed [0; 10]%Z)
  = Ok 0%Z (set_bag_report (report_only (to_sec (Scenario.sec 10)) 6)
                           (Scenario.fed [0; 10]%Z)).
Proof. vm_compute; reflexivity. Qed.

(** ** Retention: the [while] loop of [bagger_callback] *)

Lemma popleft_while_trims (limit : Duration) (dq : list Stamped) :
  (0 <= limit)%Z ->
  forall d, deque_duration dq = Some d ->
  exists dq' d',
    popleft_while true limit d dq = inr dq' /\
    dq' `suffix_of` dq /\
    last dq' = last dq /\
    deque_duration dq' = Some d' /\
    (d' <= limit)%Z.
Proof.
  intros Hlimit. induction dq as [|x dq IH]; intros d Hd; [done|].
  simpl. destruct (limit <? d)%Z eqn:Hcmp; simpl.
  - destruct dq as [|y dq].
    + rewrite deque_duration_single in Hd. simplify_eq. lia.
    + destruct (deque_duration_cons y dq) as [d1 Hd1]. rewrite Hd1.
      destruct (IH d1 Hd1) as (dq' & d' & Hrun & Hsuf & Hlast & Hdur & Hle).
      exists dq', d'. split; [done|]. split; [by apply suffix_cons_r|].
      split; [by rewrite Hlast|done].
  - exists (x :: dq), d. repeat split; try done. lia.
Qed.

Lemma subscribe_entries_lookup (w : World) (l : list TopicEntry)
    (index : nat) (entry : TopicEntry) :
  l !! index = Some entry ->
  exists entry', (subscribe_entries w l).1 !! index = Some entry' /\
                 topic_name entry' = topic_name entry /\
                 topic_stream_time entry' = topic_stream_time entry.
Proof.
  revert index. induction l as [|t l IH]; intros index Hl; [done|].
  simpl. destruct (subscribe_entries w l) as [l' n] eqn:Hrec.
  destruct index as [|index]; simpl in Hl.
  - simplify_eq. destruct (negb (topic_status entry) && resolvable w (topic_name entry));
      eexists; simpl; eauto.
  - destruct (IH _ Hl) as (entry' & Hl' & Hn & Ht).
    destruct (negb (topic_status t) && resolvable w (topic_name t));
      exists entry'; simpl; eauto.
Qed.

(** Running a sequence of two steps. *)
Lemma bind_Ok {A B} (m : M A) (k : A -> M B) (st st' : Bagger) (a : A) :
  m st = Ok a st' -> bind m k st = k a st'.
Proof. unfold bind. by intros ->. Qed.

Lemma deque_of_Some (st : Bagger) (topic : string) (dq : list Stamped) :
  topic_messages st !! topic = Some dq -> deque_of topic st = Ok dq st.
Proof. unfold deque_of. by intros ->. Qed.

Lemma get_topic_duration_Some (st : Bagger) (topic : string) (dq : list Stamped)
    (d : Duration) :
  topic_messages st !! topic = Some dq -> deque_duration dq = Some d ->
  get_topic_duration topic st = Ok d st.
Proof. intros Hdq Hd. by rewrite (get_topic_duration_eq _ _ _ Hdq), Hd. Qed.

Lemma trim_Ok (st : Bagger) (w : World) (topic : string) (limit d : Duration)
    (dq dq' : list Stamped) :
  topic_messages st !! topic = Some dq ->
  popleft_while (negb (is_shutdown w)) limit d dq = inr dq' ->
  trim w topic limit d st
  = Ok tt (set_topic_messages (<[topic := dq']> (topic_messages st)) st).
Proof.
  intros Hdq Hloop. unfold trim.
  erewrite bind_Ok; [|by apply deque_of_Some]. by rewrite Hloop.
Qed.

(** One message delivered while streaming, on a configured topic whose
    stream time is not negative. *)
Lemma bagger_callback_step (st : Bagger) (w : World) (msg : Msg) (topic : string)
    (dq : list Stamped) (index : nat) (entry : TopicEntry) :
  streaming st = true ->
  is_shutdown w = false ->
  topic_messages st !! topic = Some dq ->
  list_index topic (topic_list st) = Some index ->
  subscriber_list st !! index = Some entry ->
  (0 <= topic_stream_time entry)%Z ->
  exists st' dq' entry' d,
    bagger_callback w msg topic st = Ok tt st' /\
    streaming st' = true /\
    topic_list st' = topic_list st /\
    subscriber_list st' !! index = Some entry' /\
    topic_stream_time entry' = topic_stream_time entry /\
    topic_messages st' !! topic = Some dq' /\
    dq' `suffix_of` (dq ++ [(get_header_time w msg, msg)]) /\
    last dq' = Some (get_header_time w msg, msg) /\
    deque_duration dq' = Some d /\
    (d <= duration_of_secs (topic_stream_time entry))%Z.
Proof.
  intros Hs Hrun Hdq Hidx Hentry Hlimit.
  set (new := (get_header_time w msg, msg)).
  assert (exists d0, deque_duration (dq ++ [new]) = Some d0) as [d0 Hd0].
  { destruct dq as [|x dq]; [eexists; apply deque_duration_single|].
    apply deque_duration_cons. }
  assert (0 <= duration_of_secs (topic_stream_time entry))%Z as Hlim
    by (unfold duration_of_secs; lia).
  destruct (popleft_while_trims _ (dq ++ [new]) Hlim d0 Hd0)
    as (dq' & d' & Hloop & Hsuf & Hlast & Hdur & Hle).
  destruct (subscribe_entries_lookup w _ _ _ Hentry) as (entry' & He' & _ & Htime).
  unfold bagger_callback.
  erewrite bind_Ok; [|reflexivity]. rewrite Hs. cbn [negb].
  erewrite bind_Ok; [|reflexivity].
  erewrite bind_Ok; [|by apply deque_of_Some].
  erewrite bind_Ok; [|reflexivity].
  erewrite bind_Ok; [|by eapply get_topic_duration_Some; [apply lookup_insert_eq|]].
  erewrite bind_Ok; [|reflexivity]. simpl topic_list.
  erewrite bind_Ok; [|by rewrite Hidx].
  erewrite bind_Ok; [|reflexivity]. simpl subscriber_list.
  erewrite bind_Ok; [|by rewrite Hentry].
  erewrite bind_Ok;
    [|by eapply trim_Ok; [apply lookup_insert_eq | rewrite Hrun; apply Hloop]].
  unfold subscribe, update. simpl.
  destruct (subscribe_entries w (subscriber_list st)) as [l n] eqn:Hsub.
  simpl in He'.
  eexists _, dq', entry', d'. split; [reflexivity|]. simpl.
  rewrite lookup_insert_eq, Hlast, last_snoc. done.
Qed.

(** ** Claims about ingestion *)



(** ** The gate *)

Lemma bagger_callback_closed (st : Bagger) (w : World) (msg : Msg) (topic : string) :
  streaming st = false -> bagger_callback w msg topic st = Ok tt st.
Proof.
  intros Hs. unfold bagger_callback.
  erewrite bind_Ok; [|reflexivity]. by rewrite Hs.
Qed.

Lemma deliveries_closed (ds : list Delivery) (st : Bagger) :
  streaming st = false -> for_each deliver ds st = Ok tt st.
Proof.
  intros Hs. induction ds as [|d ds IH]; [done|].
  simpl. erewrite bind_Ok; [exact IH|]. by apply bagger_callback_closed.
Qed.

Lemma same_when_closed_refl {A} (m : M A) : same_when_closed m m.
Proof. by intros st _. Qed.

Lemma same_when_closed_bind {A B} (m1 m2 : M A) (k1 k2 : A -> M B) :
  same_when_closed m1 m2 ->
  preserves streaming m2 ->
  (forall a, same_when_closed (k1 a) (k2 a)) ->
  same_when_closed (bind m1 k1) (bind m2 k2).
Proof.
  intros Hm Hkeep Hk st Hs. unfold bind. rewrite (Hm st Hs).
  specialize (Hkeep st). destruct (m2 st) as [a st'|e st']; [|done].
  apply Hk. simpl in Hkeep. congruence.
Qed.

Lemma same_when_closed_traffic {A} (ds : list Delivery) (k1 k2 : M A) :
  same_when_closed k1 k2 ->
  same_when_closed (for_each deliver ds ;;; k1) k2.
Proof.
  intros Hk st Hs. erewrite bind_Ok; [|by apply deliveries_closed]. by apply Hk.
Qed.

Lemma bag_topic_keeps_gate (w : World) (req : Request) (entry : TopicEntry) :
  preserves streaming (bag_topic w req entry).
Proof. by apply preserves_bag_topic. Qed.

Lemma bag_topics_under_traffic_closed (w : World) (req : Request)
    (traffic : DumpPoint -> list Delivery) (l : list TopicEntry) (i : nat) :
  same_when_closed (bag_topics_under_traffic w req traffic i l)
                   (for_each (bag_topic w req) l).
Proof.
  revert i. induction l as [|entry l IH]; intros i; simpl.
  - apply same_when_closed_refl.
  - apply same_when_closed_traffic.
    apply same_when_closed_bind;
      [apply same_when_closed_refl | apply bag_topic_keeps_gate | intros _; apply IH].
Qed.

(** C3.  While the gate is closed a delivered message changes nothing;
    and a dump during which messages are delivered, at any of its steps,
    returns the same response, bag and deques as the dump without them. *)
Theorem closed_gate_drops_messages :
  (forall st w msg topic,
     streaming st = false -> bagger_callback w msg topic st = Ok tt st) /\
  (forall w req traffic st,
     start_bagging_under_traffic w req traffic st = start_bagging w req st).
Proof.
  split; [intros; by apply bagger_callback_closed|].
  intros w req traffic st.
  unfold start_bagging_under_traffic, start_bagging.
  erewrite !(bind_Ok (update (set_streaming false))); [|reflexivity..].
  revert traffic. generalize (set_streaming false st) (eq_refl : streaming (set_streaming false st) = false).
  intros st0 Hclosed traffic. revert st0 Hclosed.
  change (same_when_closed
    (for_each deliver (traffic AfterGateClosed) ;;;
     set_bag_directory w (req_bag_name req) ;;;
     for_each deliver (traffic AfterBagOpened) ;;;
     set_bagger_status ;;;
     for_each deliver (traffic AfterStatus) ;;;
     subs <~ read subscriber_list ;;
     bag_topics_under_traffic w req traffic 0 subs ;;;
     for_each deliver (traffic BeforeClose) ;;;
     bag_close ;;;
     for_each deliver (traffic BeforeGateOpened) ;;;
     update (set_streaming true) ;;;
     return_status)
    (set_bag_directory w (req_bag_name req) ;;;
     set_bagger_status ;;;
     subs <~ read subscriber_list ;;
     for_each (bag_topic w req) subs ;;;
     bag_close ;;;
     update (set_streaming true) ;;;
     return_status)).
  apply same_when_closed_traffic.
  apply same_when_closed_bind;
    [apply same_when_closed_refl | by apply preserves_set_bag_directory | intros _].
  apply same_when_closed_traffic.
  apply same_when_closed_bind;
    [apply same_when_closed_refl | by apply preserves_set_bagger_status | intros _].
  apply same_when_closed_traffic.
  apply same_when_closed_bind;
    [apply same_when_closed_refl | apply preserves_read | intros subs].
  apply same_when_closed_bind;
    [apply bag_topics_under_traffic_closed
    | apply preserves_for_each; intros; apply bag_topic_keeps_gate | intros _].
  apply same_when_closed_traffic.
  apply same_when_closed_bind;
    [apply same_when_closed_refl | by apply preserves_bag_close | intros _].
  apply same_when_closed_traffic.
  apply same_when_closed_refl.
Qed.

Lemma closed_gate_drops_messages_witness :
  bagger_callback Scenario.world (Scenario.stamped_msg 4) "/odom" Scenario.closed_gate
  = Ok tt Scenario.closed_gate.
Proof.
  apply (proj1 closed_gate_drops_messages Scenario.closed_gate Scenario.world
               (Scenario.stamped_msg 4) "/odom").
  vm_compute; reflexivity.
Defined.

(** ** The dump *)

Lemma set_bagger_status_eq (st : Bagger) :
  set_bagger_status st = Ok tt (set_status (status_text st) st).
Proof. reflexivity. Qed.

(** How a dump ends: with the status built at its start and the gate
    open, or with an exception and the gate closed. *)
Lemma start_bagging_cases (w : World) (req : Request) (st : Bagger) :
  match start_bagging w req st with
  | Ok t st' =>
      t = status_text st /\ streaming st' = true /\
      bagger_status st' = Some (status_text st)
  | Raise _ st' => streaming st' = false
  end.
Proof.
  unfold start_bagging.
  erewrite bind_Ok; [|reflexivity].
  set (st0 := set_streaming false st).
  pose proof (preserves_set_bag_directory
    (fun s => (streaming s, subscriber_list s, topic_messages s))
    w (req_bag_name req) ltac:(done) st0) as H1.
  unfold bind at 1.
  destruct (set_bag_directory w (req_bag_name req) st0) as [[] st1|e st1];
    simpl in H1; [|by simplify_eq].
  injection H1 as Hs1 Hsubs1 Hmsgs1. simpl in Hs1, Hsubs1, Hmsgs1.
  erewrite bind_Ok; [|apply set_bagger_status_eq].
  assert (status_text st1 = status_text st) as ->.
  { unfold status_text. by rewrite Hsubs1, Hmsgs1. }
  erewrite bind_Ok; [|reflexivity].
  set (st2 := set_status (status_text st) st1).
  pose proof (preserves_for_each (fun s => (streaming s, bagger_status s))
    (bag_topic w req) (subscriber_list st2)
    (fun entry => preserves_bag_topic (fun s => (streaming s, bagger_status s))
                    w req entry ltac:(done) ltac:(done) ltac:(done))
    st2) as H3.
  unfold bind at 1.
  destruct (for_each (bag_topic w req) (subscriber_list st2) st2) as [[] st3|e st3];
    simpl in H3; injection H3 as Hs3 Hstat3; [|congruence].
  pose proof (preserves_bag_close (fun s => (streaming s, bagger_status s))
    ltac:(done) st3) as H4.
  unfold bind at 1.
  destruct (bag_close st3) as [[] st4|e st4]; simpl in H4;
    injection H4 as Hs4 Hstat4; [|congruence].
  erewrite bind_Ok; [|reflexivity].
  unfold return_status. erewrite bind_Ok; [|reflexivity].
  simpl. rewrite Hstat4, Hstat3. simpl. by rewrite Hstat4, Hstat3.
Qed.

(** C1 (as the code has it).  A dump that returns leaves the gate open;
    a dump that raises leaves it closed: nothing reopens the gate on the
    way out of an exception. *)
Theorem start_bagging_gate (w : World) (req : Request) (st : Bagger) :
  match start_bagging w req st with
  | Ok _ st' => streaming st' = true
  | Raise _ st' => streaming st' = false
  end.
Proof.
  pose proof (start_bagging_cases w req st) as H.
  destruct (start_bagging w req st); [by destruct H as (_ & H & _) | done].
Qed.

(** C1 (as stated) fails: the gate stays closed when the bag file cannot
    be opened, when a write is refused, and when the index computation
    raises on a deque of one message. *)
Lemma gate_stuck_after_failed_dump :
  streaming (Scenario.fed [0; 1; 2; 3]%Z) = true /\
  (exists st', start_bagging Scenario.world_readonly (Scenario.request 0)
                 (Scenario.fed [0; 1; 2; 3]%Z) = Raise IOError st' /\
               streaming st' = false) /\
  (exists st', start_bagging Scenario.world_small_disk (Scenario.request 0)
                 (Scenario.fed [0; 1; 2; 3]%Z) = Raise IOError st' /\
               streaming st' = false) /\
  (exists st', start_bagging Scenario.world (Scenario.request 1)
                 (Scenario.fed [5]%Z) = Raise ZeroDivisionError st' /\
               streaming st' = false).
Proof.
  split; [vm_compute; reflexivity|].
  repeat split; eexists; (split; [vm_compute; reflexivity | vm_compute; reflexivity]).
Qed.

(** ** The loop of the dump, step by step *)

Lemma bind_Ok_inv {A B} (m : M A) (k : A -> M B) (st st' : Bagger) (b : B) :
  bind m k st = Ok b st' -> exists a st1, m st = Ok a st1 /\ k a st1 = Ok b st'.
Proof. unfold bind. destruct (m st) as [a st1|e st1]; [eauto | done]. Qed.

Lemma bind_Raise_eq {A B} (m : M A) (k : A -> M B) (st st' : Bagger) (e : Exn) :
  m st = Raise e st' -> bind m k st = Raise e st'.
Proof. unfold bind. by intros ->. Qed.

Lemma start_bagging_eq (w : World) (req : Request) (st : Bagger) :
  start_bagging w req st =
  if bag_openable w then
    match for_each (bag_topic w req) (subscriber_list st) (dump_start w req st) with
    | Ok _ st3 =>
        match bag st3 with
        | Some g =>
            let st5 := set_streaming true (set_bag (closed_bag g) st3) in
            match bagger_status st3 with
            | Some t => Ok t st5
            | None => Raise AttributeError st5
            end
        | None => Raise AttributeError st3
        end
    | Raise e st3 => Raise e st3
    end
  else Raise IOError (set_streaming false st).
Proof.
  unfold start_bagging, set_bag_directory.
  erewrite bind_Ok; [|reflexivity].
  destruct (bag_openable w); [|reflexivity].
  erewrite bind_Ok; [|reflexivity].
  erewrite bind_Ok; [|apply set_bagger_status_eq].
  erewrite bind_Ok; [|reflexivity].
  change (set_status _ _) with (dump_start w req st).
  change (subscriber_list (dump_start w req st)) with (subscriber_list st).
  unfold bind at 1.
  destruct (for_each (bag_topic w req) (subscriber_list st) (dump_start w req st))
    as [[] st3|e st3]; [|reflexivity].
  unfold bind at 1, bag_close at 1.
  destruct (bag st3) as [g|]; [|reflexivity].
  erewrite bind_Ok; [|reflexivity].
  unfold return_status. erewrite bind_Ok; [|reflexivity].
  simpl. by destruct (bagger_status st3).
Qed.

(** Writing the messages of a slice. *)
Lemma for_each_bag_write_Ok (w : World) (topic : string) (msgs : list Stamped) :
  forall (s s' : Bagger) (g : Bag),
    bag s = Some g ->
    for_each (fun m : Stamped => bag_write w topic (snd m) (fst m)) msgs s = Ok tt s' ->
    exists g', bag s' = Some g' /\
               bag_name g' = bag_name g /\
               bag_entries g' = bag_entries g ++ written_as topic msgs /\
               topic_messages s' = topic_messages s.
Proof.
  induction msgs as [|m msgs IH]; intros s s' g Hg Hrun; simpl in Hrun.
  - unfold ret in Hrun. simplify_eq. exists g. by rewrite app_nil_r.
  - apply bind_Ok_inv in Hrun as ([] & s1 & Hw & Hrest).
    unfold bag_write in Hw. rewrite Hg in Hw.
    destruct (bag_closed g); [done|].
    destruct (bag_accepts w g); [|done]. simplify_eq.
    eapply IH in Hrest as (g' & Hg' & Hname & Hentries & Hmsgs); [|reflexivity].
    exists g'. split; [done|]. split; [done|]. split; [|done].
    rewrite Hentries. simpl. by rewrite <- app_assoc.
Qed.

(** One subscribed topic of a dump that goes through: the slice from
    the index is appended to the bag and the deque is emptied. *)
Lemma bag_topic_Ok (w : World) (req : Request) (entry : TopicEntry)
    (s s' : Bagger) (dq : list Stamped) (g : Bag) :
  topic_status entry = true ->
  topic_messages s !! topic_name entry = Some dq ->
  bag s = Some g ->
  bag_topic w req entry s = Ok tt s' ->
  exists index s1 g',
    dump_index req (topic_name entry) s = Ok index s1 /\
    (0 <= index)%Z /\
    bag s' = Some g' /\
    bag_name g' = bag_name g /\
    bag_entries g' = bag_entries g
                     ++ written_as (topic_name entry) (drop (Z.to_nat index) dq) /\
    topic_messages s' = <[topic_name entry := []]> (topic_messages s).
Proof.
  intros Hstatus Hdq Hg Hrun. unfold bag_topic in Hrun.
  rewrite Hstatus in Hrun. cbn [negb] in Hrun.
  apply bind_Ok_inv in Hrun as (index & s1 & Hindex & Hrun).
  pose proof (preserves_dump_index (fun s => (topic_messages s, bag s))
                req (topic_name entry) ltac:(done) s) as Hkeep.
  rewrite Hindex in Hkeep. simpl in Hkeep. injection Hkeep as Hmsgs1 Hbag1.
  apply bind_Ok_inv in Hrun as (dq1 & s2 & Hdq1 & Hrun).
  rewrite (deque_of_Some s1 _ dq) in Hdq1 by (by rewrite Hmsgs1). simplify_eq.
  apply bind_Ok_inv in Hrun as (msgs & s3 & Hslice & Hrun).
  unfold slice_from in Hslice.
  destruct (index <? 0)%Z eqn:Hneg; [done|]. unfold ret in Hslice. simplify_eq.
  apply bind_Ok_inv in Hrun as ([] & s4 & Hwrite & Hstore).
  destruct (for_each_bag_write_Ok w _ _ _ _ g ltac:(by rewrite Hbag1) Hwrite)
    as (g' & Hg' & Hname & Hentries & Hmsgs4).
  unfold store_deque, update in Hstore. simplify_eq.
  exists index, s3, g'. simpl. rewrite Hmsgs4, Hmsgs1.
  repeat split; try done. lia.
Qed.

(** ** Invariants of the loop *)

Lemma maintains_bind {A B} (I : Bagger -> Prop) (m : M A) (k : A -> M B) :
  maintains I m -> (forall a, maintains I (k a)) -> maintains I (bind m k).
Proof.
  intros Hm Hk st HI. unfold bind. specialize (Hm st HI).
  destruct (m st) as [a st'|e st']; simpl in *; [by apply Hk | done].
Qed.

Lemma maintains_for_each {A} (I : Bagger -> Prop) (body : A -> M unit) (l : list A) :
  (forall x, x ∈ l -> maintains I (body x)) -> maintains I (for_each body l).
Proof.
  induction l as [|x l IH]; intros Hbody; simpl; [by intros st|].
  apply maintains_bind; [apply Hbody; left|].
  intros _. apply IH. intros y Hy. apply Hbody. by right.
Qed.

Lemma maintains_preserves {A B} (I : Bagger -> Prop) (proj : Bagger -> B) (m : M A) :
  (forall s1 s2, proj s1 = proj s2 -> I s1 -> I s2) ->
  preserves proj m -> maintains I m.
Proof. intros Hproj Hm st HI. by apply (Hproj st); [rewrite Hm|]. Qed.

Lemma bag_only_proj (P : string -> Prop) (s1 s2 : Bagger) :
  bag s1 = bag s2 -> bag_only P s1 -> bag_only P s2.
Proof. unfold bag_only. by intros ->. Qed.

Lemma bag_write_only (P : string -> Prop) (w : World) (topic : string)
    (msg : Msg) (t : Time) :
  P topic -> maintains (bag_only P) (bag_write w topic msg t).
Proof.
  intros HP st HI. unfold bag_write.
  destruct (bag st) as [g|] eqn:Hg; [|done].
  destruct (bag_closed g); [done|].
  destruct (bag_accepts w g); [|done].
  intros g' Hg'. simpl in Hg'. simplify_eq. simpl.
  apply Forall_app. split; [by apply HI|]. by apply Forall_singleton.
Qed.

Lemma bag_topic_only (P : string -> Prop) (w : World) (req : Request)
    (entry : TopicEntry) :
  (topic_status entry = true -> P (topic_name entry)) ->
  maintains (bag_only P) (bag_topic w req entry).
Proof.
  intros HP. unfold bag_topic.
  destruct (topic_status entry); cbn [negb]; [|by intros st].
  apply maintains_bind.
  { apply (maintains_preserves _ bag); [apply bag_only_proj|].
    by apply preserves_dump_index. }
  intros index. apply maintains_bind.
  { apply (maintains_preserves _ bag); [apply bag_only_proj|].
    apply preserves_deque_of. }
  intros dq. apply maintains_bind.
  { apply (maintains_preserves _ bag); [apply bag_only_proj|].
    apply preserves_slice_from. }
  intros msgs. apply maintains_bind.
  - apply maintains_for_each. intros m _. apply bag_write_only. by apply HP.
  - intros _. apply (maintains_preserves _ bag); [apply bag_only_proj|].
    by apply preserves_update.
Qed.

(** An unsubscribed entry is passed over. *)
Lemma bag_topic_unsubscribed (w : World) (req : Request) (entry : TopicEntry)
    (s : Bagger) :
  topic_status entry = false -> bag_topic w req entry s = Ok tt s.
Proof. intros Hs. unfold bag_topic. by rewrite Hs. Qed.

(** The deques after one entry of the loop, when it goes through. *)
Lemma bag_topic_Ok_deques (w : World) (req : Request) (entry : TopicEntry)
    (s s' : Bagger) :
  bag_topic w req entry s = Ok tt s' ->
  topic_messages s' = if topic_status entry
                      then <[topic_name entry := []]> (topic_messages s)
                      else topic_messages s.
Proof.
  intros Hrun. destruct (topic_status entry) eqn:Hstatus.
  - unfold bag_topic in Hrun. rewrite Hstatus in Hrun. cbn [negb] in Hrun.
      apply bind_Ok_inv in Hrun as (index & s1 & Hindex & Hrun).
    pose proof (preserves_dump_index topic_messages req (topic_name entry)
                  ltac:(done) s) as H1.
    rewrite Hindex in H1. simpl in H1.
    apply bind_Ok_inv in Hrun as (dq & s2 & Hdq & Hrun).
    pose proof (preserves_deque_of topic_messages (topic_name entry) s1) as H2.
    rewrite Hdq in H2. simpl in H2.
    apply bind_Ok_inv in Hrun as (msgs & s3 & Hslice & Hrun).
    pose proof (preserves_slice_from topic_messages index dq s2) as H3.
    rewrite Hslice in H3. simpl in H3.
    apply bind_Ok_inv in Hrun as ([] & s4 & Hwrite & Hstore).
    pose proof (preserves_for_each topic_messages
      (fun m : Stamped => bag_write w (topic_name entry) m.2 m.1) msgs
      (fun m => preserves_bag_write topic_messages w _ _ _ ltac:(done)) s3) as H4.
    rewrite Hwrite in H4. simpl in H4.
    unfold store_deque, update in Hstore. simplify_eq. simpl. congruence.
  - rewrite bag_topic_unsubscribed in Hrun by done. by simplify_eq.
Qed.

Lemma bag_topics_keep_empty (w : World) (req : Request) (topic : string)
    (l : list TopicEntry) :
  forall s s', for_each (bag_topic w req) l s = Ok tt s' ->
               topic_messages s !! topic = Some [] ->
               topic_messages s' !! topic = Some [].
Proof.
  induction l as [|entry l IH]; intros s s' Hrun Hempty; simpl in Hrun.
  - unfold ret in Hrun. by simplify_eq.
  - apply bind_Ok_inv in Hrun as ([] & s1 & Hentry & Hrest).
    apply (IH _ _ Hrest). rewrite (bag_topic_Ok_deques _ _ _ _ _ Hentry).
    destruct (topic_status entry); [|done].
    destruct (decide (topic_name entry = topic)) as [->|Hne].
    + apply lookup_insert_eq.
    + by rewrite lookup_insert_ne.
Qed.

Lemma bag_topics_empty_subscribed (w : World) (req : Request) (l : list TopicEntry) :
  forall s s' entry,
    for_each (bag_topic w req) l s = Ok tt s' ->
    entry ∈ l -> topic_status entry = true ->
    topic_messages s' !! topic_name entry = Some [].
Proof.
  induction l as [|e l IH]; intros s s' entry Hrun Hin Hstatus; [by apply elem_of_nil in Hin|].
  simpl in Hrun. apply bind_Ok_inv in Hrun as ([] & s1 & Hentry & Hrest).
  apply elem_of_cons in Hin as [->|Hin]; [|by eapply IH].
  apply (bag_topics_keep_empty _ _ _ _ _ _ Hrest).
  rewrite (bag_topic_Ok_deques _ _ _ _ _ Hentry), Hstatus. apply lookup_insert_eq.
Qed.

Lemma bag_topics_keep_unsubscribed (w : World) (req : Request) (topic : string)
    (l : list TopicEntry) :
  (forall e, e ∈ l -> topic_name e = topic -> topic_status e = false) ->
  forall s, topic_messages (final_state (for_each (bag_topic w req) l s)) !! topic
            = topic_messages s !! topic.
Proof.
  induction l as [|entry l IH]; intros Hl s; [done|]. simpl.
  pose proof (preserves_bag_topic (fun s => topic_messages s !! topic) w req entry
                ltac:(done) ltac:(done)) as Hentry.
  unfold bind. specialize (Hentry ltac:(
    intros Hs dq st; simpl; apply lookup_insert_ne; intros Heq;
    specialize (Hl entry ltac:(left) Heq); congruence) s).
  destruct (bag_topic w req entry s) as [[] s1|e s1]; simpl in Hentry; [|done].
  rewrite IH; [done|]. intros e He. apply Hl. by right.
Qed.

(** ** Claims about the response and the bag of a dump *)

Lemma text_contains_head (f : Fragment) (rest whole : Text) :
  text_contains (f :: rest) whole -> f ∈ whole.
Proof.
  intros (pre & post & ->). apply elem_of_app. right. by left.
Qed.

(** None of the three reports occurs in the status. *)
Lemma status_text_lacks_reports (st : Bagger) (total d : Q) :
  ~ text_contains report_all (status_text st) /\
  ~ text_contains (report_requested d) (status_text st) /\
  ~ text_contains (report_only total d) (status_text st).
Proof.
  repeat split; intros H; apply text_contains_head in H;
    unfold status_text in H; rewrite !elem_of_cons in H;
    destruct H as [H|[H|[H|[H|H]]]]; try discriminate; by apply elem_of_nil in H.
Qed.

(** C6 (as the code has it).  The response of a dump that returns is
    the status built before the loop: the subscriber list with the
    subscription states, and the number of messages buffered then, over
    all deques.  The report (all messages, the requested seconds, or
    only the available ones) is kept in [bag_report] and is not in the
    response. *)
Theorem start_bagging_response (w : World) (req : Request) (st st' : Bagger) (t : Text) :
  start_bagging w req st = Ok t st' ->
  (exists total,
     get_total_message_count st = Ok total st /\
     t = [Lit "Subscriber List: "; FSubs (subscriber_list st);
          Lit " Message Count: "; FNat total]) /\
  (forall total d,
     ~ text_contains report_all t /\
     ~ text_contains (report_requested d) t /\
     ~ text_contains (report_only total d) t).
Proof.
  intros Hrun. pose proof (start_bagging_cases w req st) as H.
  rewrite Hrun in H. destruct H as (-> & _ & _). split.
  - eexists. split; reflexivity.
  - intros total d. apply status_text_lacks_reports.
Qed.

Lemma start_bagging_response_witness :
  (exists total,
     get_total_message_count (Scenario.fed [0; 1; 2; 3]%Z)
       = Ok total (Scenario.fed [0; 1; 2; 3]%Z) /\
     status_text (Scenario.fed [0; 1; 2; 3]%Z)
       = [Lit "Subscriber List: "; FSubs (subscriber_list (Scenario.fed [0; 1; 2; 3]%Z));
          Lit " Message Count: "; FNat total]) /\
  (forall total d,
     ~ text_contains report_all (status_text (Scenario.fed [0; 1; 2; 3]%Z)) /\
     ~ text_contains (report_requested d) (status_text (Scenario.fed [0; 1; 2; 3]%Z)) /\
     ~ text_contains (report_only total d) (status_text (Scenario.fed [0; 1; 2; 3]%Z))).
Proof.
  apply (start_bagging_response Scenario.world (Scenario.request 1)
           (Scenario.fed [0; 1; 2; 3]%Z)
           (final_state (start_bagging Scenario.world (Scenario.request 1)
                                       (Scenario.fed [0; 1; 2; 3]%Z)))).
  vm_compute; reflexivity.
Defined.

(** C6 (as stated) fails: one second is asked of four buffered messages,
    two messages are written to the bag, and the response counts four
    and carries no report. *)
Lemma response_counts_buffered_messages :
  exists st',
    start_bagging Scenario.world (Scenario.request 1) (Scenario.fed [0; 1; 2; 3]%Z)
    = Ok [Lit "Subscriber List: ";
          FSubs [mkTopic "/odom" 10 true; mkTopic "/imu" 30 false];
          Lit " Message Count: "; FNat 4] st' /\
    bag_entries <$> bag st'
    = Some [("/odom", Scenario.stamped_msg 2, Scenario.sec 2);
            ("/odom", Scenario.stamped_msg 3, Scenario.sec 3)] /\
    bag_report st' = Some (report_requested 1) /\
    ~ text_contains (report_requested 1)
        [Lit "Subscriber List: ";
         FSubs [mkTopic "/odom" 10 true; mkTopic "/imu" 30 false];
         Lit " Message Count: "; FNat 4].
Proof.
  eexists. split; [vm_compute; reflexivity|].
  split; [vm_compute; reflexivity|].
  split; [vm_compute; reflexivity|].
  intros H. apply text_contains_head in H. rewrite !elem_of_cons in H.
  destruct H as [H|[H|[H|[H|H]]]]; try discriminate. by apply elem_of_nil in H.
Qed.

(** C8 (as the code has it).  A topic none of whose entries is
    subscribed is passed over by the loop: its entries change nothing
    and raise nothing, its deque is the same after the dump, and no
    message of the bag opened by the dump is on it.  The response still
    lists it, as the subscriber list is printed whole. *)
Theorem unsubscribed_topics_skipped (w : World) (req : Request) (st : Bagger)
    (topic : string) :
  (forall e, e ∈ subscriber_list st -> topic_name e = topic -> topic_status e = false) ->
  (forall e s, e ∈ subscriber_list st -> topic_name e = topic ->
               bag_topic w req e s = Ok tt s) /\
  topic_messages (final_state (start_bagging w req st)) !! topic
    = topic_messages st !! topic /\
  (bag_openable w = true ->
   forall g, bag (final_state (start_bagging w req st)) = Some g ->
             Forall (fun x => x.1.1 <> topic) (bag_entries g)) /\
  (forall t st' e, start_bagging w req st = Ok t st' ->
                   e ∈ subscriber_list st -> topic_name e = topic ->
                   text_names_topic topic t = true).
Proof.
  intros Hun.
  pose proof (bag_topics_keep_unsubscribed w req topic (subscriber_list st) Hun
                (dump_start w req st)) as Hdeque.
  assert (bag_only (fun n => n <> topic)
            (final_state (for_each (bag_topic w req) (subscriber_list st)
                                   (dump_start w req st)))) as Hbag.
  { apply maintains_for_each.
    - intros e He. apply bag_topic_only. intros Hs Hn.
      specialize (Hun e He Hn). congruence.
    - intros g Hg. simpl in Hg. simplify_eq. constructor. }
  split; [|split; [|split]].
  - intros e s He Hn. apply bag_topic_unsubscribed. by apply Hun.
  - rewrite start_bagging_eq.
    destruct (bag_openable w); [|done].
    destruct (for_each (bag_topic w req) (subscriber_list st) (dump_start w req st))
      as [[] st3|e st3]; simpl in Hdeque; [|done].
    destruct (bag st3) as [g|]; [|done].
    by destruct (bagger_status st3).
  - intros Hopen g. rewrite start_bagging_eq, Hopen.
    destruct (for_each (bag_topic w req) (subscriber_list st) (dump_start w req st))
      as [[] st3|e st3]; simpl in Hbag; [|apply Hbag].
    destruct (bag st3) as [g3|] eqn:Hg3; [|simpl; congruence].
    specialize (Hbag g3 Hg3).
    destruct (bagger_status st3); simpl; intros; by simplify_eq.
  - intros t st' e Hrun He Hn.
    pose proof (start_bagging_cases w req st) as H.
    rewrite Hrun in H. destruct H as (-> & _ & _).
    unfold status_text, text_names_topic. simpl.
    apply orb_true_iff. left. apply existsb_exists.
    exists e. split; [by apply list_elem_of_In|]. by apply String.eqb_eq.
Qed.

Lemma unsubscribed_topics_skipped_witness :
  topic_messages (final_state (start_bagging Scenario.world (Scenario.request 0)
                                 (Scenario.fed [0; 1; 2; 3]%Z))) !! "/imu"
  = topic_messages (Scenario.fed [0; 1; 2; 3]%Z) !! "/imu".
Proof.
  refine (proj1 (proj2 (unsubscribed_topics_skipped Scenario.world (Scenario.request 0)
                          (Scenario.fed [0; 1; 2; 3]%Z) "/imu" _))).
  assert (subscriber_list (Scenario.fed [0; 1; 2; 3]%Z)
          = [mkTopic "/odom" 10 true; mkTopic "/imu" 30 false]) as ->
    by (vm_compute; reflexivity).
  intros e He Hn. rewrite !elem_of_cons in He.
  destruct He as [->|[->|He]]; [discriminate | reflexivity | by apply elem_of_nil in He].
Defined.

(** C8 (as stated) fails on the response: [/imu] was never subscribed,
    and the response of the dump lists it. *)
Lemma response_lists_unsubscribed_topic :
  subscriber_list (Scenario.fed [0; 1; 2; 3]%Z)
    = [mkTopic "/odom" 10 true; mkTopic "/imu" 30 false] /\
  exists t st',
    start_bagging Scenario.world (Scenario.request 0) (Scenario.fed [0; 1; 2; 3]%Z)
      = Ok t st' /\
    text_names_topic "/imu" t = true.
Proof.
  split; [vm_compute; reflexivity|].
  do 2 eexists. split; vm_compute; reflexivity.
Qed.

(** C10.  After a dump that returns, for a positive requested duration,
    the deque of every subscribed topic is empty; and in such a dump the
    step of a subscribed topic writes the slice from the index and
    empties the deque, so the messages before the index are dropped
    unwritten. *)
Theorem dump_empties_subscribed_deques (w : World) (req : Request) (d : Q)
    (st st' : Bagger) (t : Text) :
  req_bag_time req = Some d ->
  (0 < d)%Q ->
  start_bagging w req st = Ok t st' ->
  (forall e, e ∈ subscriber_list st -> topic_status e = true ->
             topic_messages st' !! topic_name e = Some []) /\
  (forall e s s' dq g,
     topic_status e = true ->
     topic_messages s !! topic_name e = Some dq ->
     bag s = Some g ->
     bag_topic w req e s = Ok tt s' ->
     exists index s1 g',
       get_time_index (topic_name e) d s = Ok index s1 /\
       (0 <= index)%Z /\
       bag s' = Some g' /\
       bag_entries g' = bag_entries g
                        ++ written_as (topic_name e) (drop (Z.to_nat index) dq) /\
       topic_messages s' !! topic_name e = Some []).
Proof.
  intros Htime Hpos Hrun. split.
  - intros e He Hstatus. rewrite start_bagging_eq in Hrun.
    destruct (bag_openable w); [|done].
    destruct (for_each (bag_topic w req) (subscriber_list st) (dump_start w req st))
      as [[] st3|e3 st3] eqn:Hloop; [|done].
    destruct (bag st3) as [g|]; [|done].
    destruct (bagger_status st3); simpl in Hrun; simplify_eq. simpl.
    by eapply bag_topics_empty_subscribed.
  - intros e s s' dq g Hstatus Hdq Hg Hstep.
    destruct (bag_topic_Ok w req e s s' dq g Hstatus Hdq Hg Hstep)
      as (index & s1 & g' & Hindex & Hnn & Hg' & _ & Hentries & Hmsgs).
    exists index, s1, g'. repeat split; try done.
    + unfold dump_index in Hindex. rewrite Htime in Hindex. simpl in Hindex.
      destruct (Qeq_bool d 0) eqn:Hz; [|done].
      apply Qeq_bool_iff in Hz. rewrite Hz in Hpos. by apply Qlt_irrefl in Hpos.
    + rewrite Hmsgs. apply lookup_insert_eq.
Qed.

Lemma dump_empties_subscribed_deques_witness :
  topic_messages (final_state (start_bagging Scenario.world (Scenario.request 1)
                                 (Scenario.fed [0; 1; 2; 3]%Z))) !! "/odom"
  = Some [].
Proof.
  refine (proj1 (dump_empties_subscribed_deques Scenario.world (Scenario.request 1) 1
                   (Scenario.fed [0; 1; 2; 3]%Z)
                   (final_state (start_bagging Scenario.world (Scenario.request 1)
                                               (Scenario.fed [0; 1; 2; 3]%Z)))
                   (status_text (Scenario.fed [0; 1; 2; 3]%Z)) _ _ _)
                (mkTopic "/odom" 10 true) _ _).
  - vm_compute; reflexivity.
  - vm_compute; reflexivity.
  - vm_compute; reflexivity.
  - vm_compute. left.
  - reflexivity.
Defined.

(** ** Invariants of the methods *)

Lemma maintains_pure {A} (I : Bagger -> Prop) (m : M A) :
  preserves (fun s => s) m -> maintains I m.
Proof. intros Hm st HI. by rewrite (Hm st). Qed.

Lemma maintains_update (I : Bagger -> Prop) (f : Bagger -> Bagger) :
  (forall st, I st -> I (f st)) -> maintains I (update f).
Proof. intros Hf st HI. by apply Hf. Qed.

Lemma maintains_and {A} (I J : Bagger -> Prop) (m : M A) :
  maintains I m -> maintains J m -> maintains (fun st => I st /\ J st) m.
Proof. intros HI HJ st [H1 H2]. split; [by apply HI | by apply HJ]. Qed.

(** After [self.topic_messages[topic]] went through, the topic has a
    deque. *)
Lemma maintains_deque_of_bind {B} (I : Bagger -> Prop) (topic : string)
    (k : list Stamped -> M B) :
  (forall dq, maintains (fun st => I st /\ has_deque topic st) (k dq)) ->
  maintains I (bind (deque_of topic) k).
Proof.
  intros Hk st HI. unfold bind, deque_of.
  destruct (topic_messages st !! topic) as [dq|] eqn:Hdq; [|done].
  apply (Hk dq st). split; [done|]. by exists dq.
Qed.

Lemma store_deque_stable (I : Bagger -> Prop) (topic : string) (dq : list Stamped) :
  buffer_stable I ->
  maintains (fun st => I st /\ has_deque topic st) (store_deque topic dq).
Proof.
  intros Hbuf st [HI Hhas]. split; [by apply Hbuf|].
  unfold has_deque. simpl. rewrite lookup_insert_eq. by eexists.
Qed.

Lemma has_deque_proj (topic : string) (s1 s2 : Bagger) :
  topic_messages s1 = topic_messages s2 -> has_deque topic s1 -> has_deque topic s2.
Proof. unfold has_deque. by intros ->. Qed.

Lemma subscribe_eq (w : World) (st : Bagger) :
  subscribe w st =
  Ok tt (set_successful_subscription_count
           (successful_subscription_count st + (subscribe_entries w (subscriber_list st)).2)
           (set_subscriber_list (subscribe_entries w (subscriber_list st)).1 st)).
Proof.
  unfold subscribe, update. by destruct (subscribe_entries w (subscriber_list st)).
Qed.

Lemma subscribe_keeps_deques (w : World) : preserves topic_messages (subscribe w).
Proof. intros st. by rewrite subscribe_eq. Qed.

Lemma maintains_trim (I : Bagger -> Prop) (w : World) (topic : string)
    (limit d : Duration) :
  buffer_stable I ->
  maintains (fun st => I st /\ has_deque topic st) (trim w topic limit d).
Proof.
  intros Hbuf. unfold trim.
  apply maintains_bind; [apply maintains_pure, preserves_deque_of | intros dq].
  destruct (popleft_while (negb (is_shutdown w)) limit d dq) as [[e dq']|dq'].
  - apply maintains_bind; [by apply store_deque_stable|].
    intros _. apply maintains_pure, preserves_raise.
  - by apply store_deque_stable.
Qed.

(** An invariant of [subscribe] that reads neither the bookkeeping nor
    the contents of the deques is an invariant of [bagger_callback]. *)
Lemma maintains_bagger_callback (I : Bagger -> Prop) (w : World) (msg : Msg)
    (topic : string) :
  bookkeeping_stable I -> buffer_stable I ->
  maintains I (subscribe w) ->
  maintains I (bagger_callback w msg topic).
Proof.
  intros (Hiter & _) Hbuf Hsub. unfold bagger_callback.
  apply maintains_bind; [apply maintains_pure, preserves_read | intros s].
  destruct (negb s); [apply maintains_pure, preserves_ret|].
  apply maintains_bind; [apply maintains_update; intros; by apply Hiter | intros _].
  apply maintains_deque_of_bind. intros dq.
  apply maintains_bind; [by apply store_deque_stable | intros _].
  apply maintains_bind; [apply maintains_pure, preserves_get_topic_duration | intros d].
  apply maintains_bind; [apply maintains_pure, preserves_read | intros tl].
  apply maintains_bind; [apply maintains_pure, preserves_lookup_or_raise | intros index].
  apply maintains_bind; [apply maintains_pure, preserves_read | intros subs].
  apply maintains_bind; [apply maintains_pure, preserves_lookup_or_raise | intros entry].
  apply maintains_bind; [by apply maintains_trim | intros _].
  apply maintains_and; [done|].
  apply (maintains_preserves _ topic_messages);
    [apply has_deque_proj | apply subscribe_keeps_deques].
Qed.

Lemma maintains_get_time_index (I : Bagger -> Prop) (topic : string) (d : Q) :
  (forall t st, I st -> I (set_bag_report t st)) ->
  maintains I (get_time_index topic d).
Proof.
  intros Hrep. unfold get_time_index.
  apply maintains_bind; [apply maintains_pure, preserves_get_topic_duration | intros dur].
  apply maintains_bind; [apply maintains_pure, preserves_py_div | intros ratio].
  apply maintains_bind;
    [apply maintains_pure, preserves_get_topic_message_count | intros count].
  apply maintains_bind; [apply maintains_update; intros; by apply Hrep | intros _].
  apply maintains_bind; [|intros; apply maintains_pure, preserves_ret].
  case_match; [apply maintains_update; intros; by apply Hrep
              | apply maintains_pure, preserves_ret].
Qed.

Lemma maintains_dump_index (I : Bagger -> Prop) (req : Request) (topic : string) :
  (forall t st, I st -> I (set_bag_report t st)) ->
  maintains I (dump_index req topic).
Proof.
  intros Hrep. unfold dump_index.
  destruct (req_bag_time req) as [d|].
  - destruct (bag_everything (Some d)).
    + apply maintains_bind; [apply maintains_update; intros; by apply Hrep|].
      intros; apply maintains_pure, preserves_ret.
    + by apply maintains_get_time_index.
  - apply maintains_bind; [apply maintains_update; intros; by apply Hrep|].
    intros; apply maintains_pure, preserves_ret.
Qed.

Lemma maintains_bag_write (I : Bagger -> Prop) (w : World) (topic : string)
    (msg : Msg) (t : Time) :
  (forall g st, I st -> I (set_bag g st)) -> maintains I (bag_write w topic msg t).
Proof.
  intros Hbag st HI. unfold bag_write.
  destruct (bag st) as [g|]; [|done].
  destruct (bag_closed g); [done|].
  destruct (bag_accepts w g); [by apply Hbag | done].
Qed.

Lemma buffer_clearing_stable (I : Bagger -> Prop) :
  buffer_stable I -> clearing_stable I.
Proof. intros H st topic. apply H. Qed.

Lemma maintains_bag_topic (I : Bagger -> Prop) (w : World) (req : Request)
    (entry : TopicEntry) :
  bookkeeping_stable I -> clearing_stable I -> maintains I (bag_topic w req entry).
Proof.
  intros (_ & _ & Hrep & _ & Hbag) Hclear. unfold bag_topic.
  destruct (negb (topic_status entry)); [apply maintains_pure, preserves_ret|].
  apply maintains_bind; [by apply maintains_dump_index | intros index].
  apply maintains_deque_of_bind. intros dq.
  apply maintains_bind; [apply maintains_pure, preserves_slice_from | intros msgs].
  apply maintains_bind.
  - apply maintains_for_each. intros m _. apply maintains_bag_write.
    intros g st [HI Hhas]. split; [by apply Hbag | done].
  - intros _ st [HI Hhas]. split; [by apply Hclear|].
    unfold has_deque. simpl. rewrite lookup_insert_eq. by eexists.
Qed.

(** An invariant that reads neither the bookkeeping nor whether a deque
    was emptied is an invariant of [start_bagging]. *)
Lemma maintains_start_bagging (I : Bagger -> Prop) (w : World) (req : Request) :
  bookkeeping_stable I -> clearing_stable I -> maintains I (start_bagging w req).
Proof.
  intros Hbook Hbuf. pose proof Hbook as (_ & Hstream & _ & Hstat & Hbag).
  unfold start_bagging.
  apply maintains_bind; [apply maintains_update; intros; by apply Hstream | intros _].
  apply maintains_bind.
  { unfold set_bag_directory. destruct (bag_openable w);
      [apply maintains_update; intros; by apply Hbag
      | apply maintains_pure, preserves_raise]. }
  intros _. apply maintains_bind.
  { unfold set_bagger_status.
    apply maintains_bind; [apply maintains_pure, preserves_read | intros subs].
    apply maintains_bind; [apply maintains_pure, preserves_read | intros total].
    apply maintains_update; intros; by apply Hstat. }
  intros _. apply maintains_bind; [apply maintains_pure, preserves_read | intros subs].
  apply maintains_bind.
  { apply maintains_for_each. intros e _. by apply maintains_bag_topic. }
  intros _. apply maintains_bind.
  { intros st HI. unfold bag_close. destruct (bag st); [by apply Hbag | done]. }
  intros _. apply maintains_bind; [apply maintains_update; intros; by apply Hstream|].
  intros _. unfold return_status.
  apply maintains_bind; [apply maintains_pure, preserves_read | intros s].
  apply maintains_pure, preserves_lookup_or_raise.
Qed.

(** ** [subscribe] *)

Lemma subscribe_entries_fst (w : World) (l : list TopicEntry) :
  (subscribe_entries w l).1 = subscribed_now w <$> l.
Proof.
  induction l as [|[name time status] l IH]; [done|].
  simpl. destruct (subscribe_entries w l) as [l' n]. simpl in IH. subst l'.
  destruct status, (resolvable w name) eqn:Hr; simpl;
    unfold subscribed_now; simpl; rewrite ?Hr; reflexivity.
Qed.

Lemma subscribe_entries_count (w : World) (l : list TopicEntry) :
  length (subscribed (subscribe_entries w l).1)
  = (length (subscribed l) + (subscribe_entries w l).2)%nat.
Proof.
  unfold subscribed. induction l as [|[name time status] l IH]; [done|].
  simpl. destruct (subscribe_entries w l) as [l' n]. simpl in IH.
  destruct status, (resolvable w name); simpl;
    rewrite ?filter_cons_False by done; rewrite ?IH; lia.
Qed.

Lemma subscribed_now_idem (w : World) (e : TopicEntry) :
  subscribed_now w (subscribed_now w e) = subscribed_now w e.
Proof.
  unfold subscribed_now. simpl. f_equal.
  by destruct (topic_status e), (resolvable w (topic_name e)).
Qed.

Lemma subscribe_entries_again (w : World) (l : list TopicEntry) :
  subscribe_entries w (subscribed_now w <$> l) = (subscribed_now w <$> l, 0%nat).
Proof.
  induction l as [|e l IH]; [done|].
  rewrite fmap_cons. cbn [subscribe_entries]. rewrite IH.
  assert (negb (topic_status (subscribed_now w e))
          && resolvable w (topic_name (subscribed_now w e)) = false) as ->; [|done].
  unfold subscribed_now. simpl.
  by destruct (topic_status e), (resolvable w (topic_name e)).
Qed.

Lemma subscribe_keeps_configuration (w : World) :
  preserves configuration (subscribe w).
Proof.
  intros st. rewrite subscribe_eq. unfold configuration. simpl.
  rewrite subscribe_entries_fst, <- !list_fmap_compose. done.
Qed.

Lemma configuration_stable (c : list string * list string * list Z * gset string) :
  bookkeeping_stable (fun st => configuration st = c) /\
  buffer_stable (fun st => configuration st = c).
Proof.
  split; [by repeat split|].
  intros st topic dq <- Hsome. unfold configuration. simpl.
  f_equal. apply dom_insert_lookup_L. exact Hsome.
Qed.

Lemma count_agrees_stable : bookkeeping_stable count_agrees /\ buffer_stable count_agrees.
Proof. split; [by repeat split | by intros st topic dq H _]. Qed.

Lemma subscribe_keeps_count (w : World) : maintains count_agrees (subscribe w).
Proof.
  intros st Hc. rewrite subscribe_eq. unfold count_agrees in *. simpl.
  rewrite subscribe_entries_count. lia.
Qed.


(** X2.  No method changes the configuration: the topics of
    [topic_list] and of [subscriber_list] in their order, the stream
    times, and the keys of [topic_messages] are the same after
    [subscribe], [bagger_callback] and [start_bagging], whether they
    return or raise. *)
Theorem configuration_is_kept (w : World) (msg : Msg) (topic : string)
    (req : Request) (st : Bagger) :
  configuration (final_state (subscribe w st)) = configuration st /\
  configuration (final_state (bagger_callback w msg topic st)) = configuration st /\
  configuration (final_state (start_bagging w req st)) = configuration st.
Proof.
  destruct (configuration_stable (configuration st)) as [Hbook Hbuf].
  split; [apply subscribe_keeps_configuration|]. split.
  - apply (maintains_bagger_callback _ w msg topic Hbook Hbuf); [|done].
    intros s Hs. by rewrite subscribe_keeps_configuration.
  - by apply (maintains_start_bagging _ w req Hbook (buffer_clearing_stable _ Hbuf)).
Qed.

(** X3.  When the counter of successful subscriptions equals the number
    of subscribed entries, it still does after [subscribe],
    [bagger_callback] and [start_bagging], whether they return or
    raise. *)
Theorem subscription_count_is_kept (w : World) (msg : Msg) (topic : string)
    (req : Request) (st : Bagger) :
  count_agrees st ->
  count_agrees (final_state (subscribe w st)) /\
  count_agrees (final_state (bagger_callback w msg topic st)) /\
  count_agrees (final_state (start_bagging w req st)).
Proof.
  intros Hc. destruct count_agrees_stable as [Hbook Hbuf].
  split; [by apply subscribe_keeps_count|]. split.
  - apply (maintains_bagger_callback _ w msg topic Hbook Hbuf); [|done].
    apply subscribe_keeps_count.
  - by apply (maintains_start_bagging _ w req Hbook (buffer_clearing_stable _ Hbuf)).
Qed.

(** ** [make_dicts] *)

Lemma make_dicts_deques (cfg : list (string * option Z)) :
  forall (m0 : gmap string (list Stamped)) (topic : string),
    foldl (fun m c => <[fst c := []]> m) m0 cfg !! topic
    = if decide (topic ∈ cfg.*1) then Some [] else m0 !! topic.
Proof.
  induction cfg as [|c cfg IH]; intros m0 topic.
  - rewrite decide_False; [done | apply not_elem_of_nil].
  - rewrite fmap_cons. cbn [foldl]. rewrite IH.
    destruct (decide (topic ∈ cfg.*1)) as [Hin|Hnot].
    + rewrite decide_True; [done | by right].
    + destruct (decide (topic = c.1)) as [->|Hne].
      * rewrite decide_True by left. apply lookup_insert_eq.
      * rewrite decide_False; [by apply lookup_insert_ne|].
        intros Hin. apply elem_of_cons in Hin as [?|?]; done.
Qed.

Lemma total_messages_empty (m : gmap string (list Stamped)) :
  (forall topic dq, m !! topic = Some dq -> dq = []) -> total_messages m = 0%nat.
Proof.
  unfold total_messages.
  apply (map_fold_weak_ind
    (fun r m => (forall topic dq, m !! topic = Some dq -> dq = []) -> r = 0%nat)).
  - done.
  - intros i x m' r Hnone IH Hall.
    rewrite (Hall i x) by apply lookup_insert_eq. simpl.
    rewrite IH; [done|]. intros topic dq Hdq. apply (Hall topic).
    rewrite lookup_insert_ne; [done|]. intros ->. congruence.
Qed.

Lemma make_dicts_wf (stream_time : Z) (cfg : list (string * option Z)) :
  well_formed (make_dicts stream_time cfg).
Proof.
  split.
  - unfold make_dicts. simpl. by rewrite <- list_fmap_compose.
  - intros topic Hin. unfold make_dicts in *. simpl in *.
    rewrite make_dicts_deques. by rewrite decide_True.
Qed.

Lemma make_dicts_none_subscribed (stream_time : Z) (cfg : list (string * option Z)) :
  subscribed (subscriber_list (make_dicts stream_time cfg)) = [].
Proof.
  unfold subscribed, make_dicts. simpl. induction cfg as [|c cfg IH]; [done|].
  rewrite fmap_cons, filter_cons_False by done. exact IH.
Qed.

Lemma make_dicts_count (stream_time : Z) (cfg : list (string * option Z)) :
  count_agrees (make_dicts stream_time cfg).
Proof. unfold count_agrees. by rewrite make_dicts_none_subscribed. Qed.

(** X4.  [make_dicts] leaves a node that streams, whose lists and
    dictionary agree, with no entry subscribed and the counter at zero;
    the dictionary has an empty deque for every configured topic, also
    one listed twice, and no other key, so no message is counted. *)
Theorem make_dicts_fresh (stream_time : Z) (cfg : list (string * option Z)) :
  let st := make_dicts stream_time cfg in
  well_formed st /\
  count_agrees st /\
  streaming st = true /\
  subscribed (subscriber_list st) = [] /\
  (forall topic, topic_messages st !! topic
                 = if decide (topic ∈ cfg.*1) then Some [] else None) /\
  get_total_message_count st = Ok 0%nat st.
Proof.
  simpl.
  assert (subscribed (subscriber_list (make_dicts stream_time cfg)) = []) as Hnone.
  { unfold subscribed, make_dicts. simpl. induction cfg as [|c cfg IH]; [done|].
    rewrite fmap_cons, filter_cons_False by done. exact IH. }
  assert (forall topic, topic_messages (make_dicts stream_time cfg) !! topic
                        = if decide (topic ∈ cfg.*1) then Some [] else None) as Hdq.
  { intros topic. unfold make_dicts. simpl. by rewrite make_dicts_deques. }
  repeat split.
  - unfold make_dicts. simpl. rewrite <- list_fmap_compose. done.
  - intros topic Hin. rewrite Hdq. unfold make_dicts in Hin. simpl in Hin.
    by rewrite decide_True.
  - unfold count_agrees. by rewrite Hnone.
  - exact Hnone.
  - exact Hdq.
  - unfold get_total_message_count, read. f_equal.
    apply total_messages_empty. intros topic dq. rewrite Hdq.
    case_decide; congruence.
Qed.

(** ** Deliveries on a node in order *)

Lemma list_index_elem_of (x : string) (l : list string) :
  x ∈ l -> exists i, list_index x l = Some i /\ l !! i = Some x.
Proof.
  induction l as [|y l IH]; intros Hin; [by apply elem_of_nil in Hin|].
  simpl. destruct (String.eqb y x) eqn:Heq.
  - apply String.eqb_eq in Heq as ->. by exists 0%nat.
  - apply String.eqb_neq in Heq.
    apply elem_of_cons in Hin as [->|Hin]; [done|].
    destruct (IH Hin) as (i & -> & Hi). by exists (S i).
Qed.

Lemma well_formed_configuration (s1 s2 : Bagger) :
  configuration s1 = configuration s2 -> well_formed s1 -> well_formed s2.
Proof.
  unfold configuration, well_formed. intros Hc [Hl Hd].
  injection Hc as Htl Hnames _ Hdom. split; [congruence|].
  intros topic Hin. apply elem_of_dom. rewrite <- Hdom. apply elem_of_dom.
  apply Hd. by rewrite Htl.
Qed.

Lemma bagger_callback_keeps_configuration (w : World) (msg : Msg) (topic : string)
    (st : Bagger) :
  configuration (final_state (bagger_callback w msg topic st)) = configuration st.
Proof.
  destruct (configuration_stable (configuration st)) as [Hbook Hbuf].
  apply (maintains_bagger_callback _ w msg topic Hbook Hbuf); [|done].
  intros s Hs. by rewrite subscribe_keeps_configuration.
Qed.

(** A delivery on a configured topic of a node in order returns. *)
Lemma bagger_callback_returns (w : World) (msg : Msg) (topic : string) (st : Bagger) :
  well_formed st ->
  Forall (fun t => 0 <= t)%Z (topic_stream_time <$> subscriber_list st) ->
  topic ∈ topic_list st ->
  is_shutdown w = false ->
  exists st', bagger_callback w msg topic st = Ok tt st'.
Proof.
  intros [Hl Hd] Htimes Hin Hrun.
  destruct (streaming st) eqn:Hs;
    [|exists st; by apply bagger_callback_closed].
  destruct (Hd topic Hin) as [dq Hdq].
  destruct (list_index_elem_of _ _ Hin) as (i & Hidx & Hi).
  rewrite Hl, list_lookup_fmap in Hi.
  destruct (subscriber_list st !! i) as [entry|] eqn:Hentry; [|done].
  assert (0 <= topic_stream_time entry)%Z as Hlimit.
  { rewrite Forall_forall in Htimes. apply Htimes.
    apply list_elem_of_fmap. exists entry. split; [done|].
    by eapply list_elem_of_lookup_2. }
  destruct (bagger_callback_step st w msg topic dq i entry Hs Hrun Hdq Hidx Hentry Hlimit)
    as (st' & _ & _ & _ & Hcall & _).
  by exists st'.
Qed.

(** X5.  On a node whose lists and dictionary agree and whose stream
    times are not negative, every sequence of deliveries on configured
    topics, made while the node is not shut down, returns: no callback
    raises, and the node is in order afterwards. *)
Theorem deliveries_return (st : Bagger) (ds : list Delivery) :
  well_formed st ->
  Forall (fun t => 0 <= t)%Z (topic_stream_time <$> subscriber_list st) ->
  Forall (fun d : Delivery => d.2 ∈ topic_list st /\ is_shutdown d.1.1 = false) ds ->
  exists st', for_each deliver ds st = Ok tt st' /\
              well_formed st' /\ configuration st' = configuration st.
Proof.
  revert st. induction ds as [|d ds IH]; intros st Hwf Htimes Hds.
  - by exists st.
  - apply Forall_cons in Hds as [[Hin Hrun] Hds].
    destruct (bagger_callback_returns d.1.1 d.1.2 d.2 st Hwf Htimes Hin Hrun)
      as [st1 Hcall].
    pose proof (bagger_callback_keeps_configuration d.1.1 d.1.2 d.2 st) as Hconf.
    rewrite Hcall in Hconf. simpl in Hconf.
    assert (well_formed st1) as Hwf1 by (by eapply well_formed_configuration).
    pose proof Hconf as Hc. unfold configuration in Hc.
    injection Hc as Htl _ Htm _.
    destruct (IH st1 Hwf1) as (st' & Hrest & Hwf' & Hconf').
    + by rewrite Htm.
    + by rewrite Htl.
    + exists st'. simpl. unfold deliver at 1. erewrite bind_Ok; [|exact Hcall].
      split; [done|]. split; [done | congruence].
Qed.

(** ** One delivery, whatever the loop does *)

(** [bagger_callback] on a streaming node, for a topic with a deque and
    an entry: the loop runs on the deque with the message appended, and
    an exception of the loop leaves the method before [subscribe]. *)
Lemma bagger_callback_eq (st : Bagger) (w : World) (msg : Msg) (topic : string)
    (dq : list Stamped) (index : nat) (entry : TopicEntry) (d0 : Duration) :
  streaming st = true ->
  topic_messages st !! topic = Some dq ->
  list_index topic (topic_list st) = Some index ->
  subscriber_list st !! index = Some entry ->
  deque_duration (dq ++ [(get_header_time w msg, msg)]) = Some d0 ->
  bagger_callback w msg topic st =
  let st1 := set_iteration_count (S (iteration_count st)) st in
  match popleft_while (negb (is_shutdown w))
                      (duration_of_secs (topic_stream_time entry)) d0
                      (dq ++ [(get_header_time w msg, msg)]) with
  | inr dq' => subscribe w (set_topic_messages (<[topic := dq']> (topic_messages st)) st1)
  | inl (e, dq') => Raise e (set_topic_messages (<[topic := dq']> (topic_messages st)) st1)
  end.
Proof.
  intros Hs Hdq Hidx Hentry Hd0. unfold bagger_callback.
  erewrite bind_Ok; [|reflexivity]. rewrite Hs. cbn [negb].
  erewrite bind_Ok; [|reflexivity].
  erewrite bind_Ok; [|by apply deque_of_Some].
  erewrite bind_Ok; [|reflexivity].
  erewrite bind_Ok; [|by eapply get_topic_duration_Some; [apply lookup_insert_eq|]].
  erewrite bind_Ok; [|reflexivity]. simpl topic_list.
  erewrite bind_Ok; [|by rewrite Hidx].
  erewrite bind_Ok; [|reflexivity]. simpl subscriber_list.
  erewrite bind_Ok; [|by rewrite Hentry].
  unfold trim at 1. unfold bind at 1.
  erewrite bind_Ok; [|by apply deque_of_Some, lookup_insert_eq].
  destruct (popleft_while _ _ _ _) as [[e dq']|dq']; simpl.
  - unfold bind, store_deque, update, raise. simpl. by rewrite insert_insert_eq.
  - unfold store_deque, update. simpl. by rewrite insert_insert_eq.
Qed.

Lemma deque_duration_snoc (dq : list Stamped) (x : Stamped) :
  exists d, deque_duration (dq ++ [x]) = Some d.
Proof.
  destruct dq as [|y dq]; [eexists; apply deque_duration_single|].
  apply deque_duration_cons.
Qed.

Lemma time_ordered_tail (x : Stamped) (dq : list Stamped) :
  time_ordered (x :: dq) -> time_ordered dq.
Proof.
  intros H i j a b Hi Hj Hle. apply (H (S i) (S j) a b); [done | done | lia].
Qed.

Lemma time_ordered_head (x y : Stamped) (dq : list Stamped) :
  time_ordered (x :: dq) -> y ∈ x :: dq -> (fst x <= fst y)%Z.
Proof.
  intros H Hin. apply list_elem_of_lookup in Hin as [j Hj].
  apply (H 0%nat j x y); [done | done | lia].
Qed.

Lemma filter_all {A} (P : A -> Prop) `{forall x, Decision (P x)} (l : list A) :
  Forall P l -> filter P l = l.
Proof.
  induction 1 as [|x l Hx _ IH]; [done|].
  rewrite filter_cons_True by done. by rewrite IH.
Qed.

Lemma deque_duration_newest (x newest : Stamped) (dq : list Stamped) (d : Duration) :
  last (x :: dq) = Some newest -> deque_duration (x :: dq) = Some d ->
  d = (fst newest - fst x)%Z.
Proof.
  unfold deque_duration, deque_last, deque_first. intros ->. simpl. congruence.
Qed.

(** With stamps in order the loop keeps exactly the messages within the
    limit of the newest one. *)
Lemma popleft_while_window (limit : Duration) (newest : Stamped) (dq : list Stamped) :
  (0 <= limit)%Z ->
  time_ordered dq ->
  last dq = Some newest ->
  forall d, deque_duration dq = Some d ->
  popleft_while true limit d dq = inr (within_window limit (fst newest) dq).
Proof.
  intros Hlimit. induction dq as [|x dq IH]; intros Hord Hlast d Hd; [done|].
  pose proof (deque_duration_newest _ _ _ _ Hlast Hd) as ->.
  unfold within_window.
  simpl. destruct (limit <? newest.1 - x.1)%Z eqn:Hcmp; simpl.
  - apply Z.ltb_lt in Hcmp.
    rewrite filter_cons_False by lia.
    destruct dq as [|y dq].
    + simpl in Hlast. simplify_eq. lia.
    + destruct (deque_duration_cons y dq) as [d1 Hd1]. rewrite Hd1.
      apply IH; [by eapply time_ordered_tail | by rewrite last_cons_cons in Hlast | done].
  - apply Z.ltb_ge in Hcmp. f_equal. symmetry. apply filter_all.
    apply Forall_forall. intros y Hy.
    pose proof (time_ordered_head x y dq Hord Hy). lia.
Qed.

(** With stamps in order and a negative limit the loop pops every
    message and raises on the empty deque. *)
Lemma popleft_while_negative (limit : Duration) (dq : list Stamped) :
  (limit < 0)%Z ->
  time_ordered dq ->
  forall d, deque_duration dq = Some d ->
  popleft_while true limit d dq = inl (IndexError, []).
Proof.
  intros Hlimit. induction dq as [|x dq IH]; intros Hord d Hd; [done|].
  destruct (last (x :: dq)) as [newest|] eqn:Hlast;
    [|unfold deque_duration, deque_last in Hd; by rewrite Hlast in Hd].
  pose proof (deque_duration_newest _ _ _ _ Hlast Hd) as ->.
  assert (x.1 <= newest.1)%Z as Hle.
  { apply (time_ordered_head x newest dq Hord). by apply last_Some_elem_of. }
  simpl. destruct (limit <? newest.1 - x.1)%Z eqn:Hcmp; simpl;
    [|apply Z.ltb_ge in Hcmp; lia].
  destruct dq as [|y dq]; [done|].
  destruct (deque_duration_cons y dq) as [d1 Hd1]. rewrite Hd1.
  apply IH; [by eapply time_ordered_tail | done].
Qed.

(** X6.  Retention is exact when the stamps arrive in order: after a
    delivery on a streaming node that is not shut down, on a topic whose
    stream time is not negative, the deque holds exactly the buffered
    messages, the new one included, that are not older than the stream
    time counted from the stamp of the new message. *)
Theorem retention_keeps_the_window (st : Bagger) (w : World) (msg : Msg)
    (topic : string) (dq : list Stamped) (index : nat) (entry : TopicEntry) :
  streaming st = true ->
  is_shutdown w = false ->
  topic_messages st !! topic = Some dq ->
  list_index topic (topic_list st) = Some index ->
  subscriber_list st !! index = Some entry ->
  (0 <= topic_stream_time entry)%Z ->
  time_ordered (dq ++ [(get_header_time w msg, msg)]) ->
  exists st',
    bagger_callback w msg topic st = Ok tt st' /\
    topic_messages st' !! topic
    = Some (within_window (duration_of_secs (topic_stream_time entry))
                          (get_header_time w msg)
                          (dq ++ [(get_header_time w msg, msg)])).
Proof.
  intros Hs Hrun Hdq Hidx Hentry Hlimit Hord.
  destruct (deque_duration_snoc dq (get_header_time w msg, msg)) as [d0 Hd0].
  rewrite (bagger_callback_eq st w msg topic dq index entry d0) by done.
  rewrite Hrun. cbn [negb].
  rewrite (popleft_while_window _ (get_header_time w msg, msg));
    [|unfold duration_of_secs; lia | done | apply last_snoc | done].
  simpl. rewrite subscribe_eq. eexists. split; [reflexivity|].
  simpl. apply lookup_insert_eq.
Qed.

(** X7.  A negative stream time makes every delivery fail: with stamps
    in order the loop pops the whole deque, the new message included,
    and the callback raises IndexError before it reaches [subscribe]. *)
Theorem negative_stream_time_raises (st : Bagger) (w : World) (msg : Msg)
    (topic : string) (dq : list Stamped) (index : nat) (entry : TopicEntry) :
  streaming st = true ->
  is_shutdown w = false ->
  topic_messages st !! topic = Some dq ->
  list_index topic (topic_list st) = Some index ->
  subscriber_list st !! index = Some entry ->
  (topic_stream_time entry < 0)%Z ->
  time_ordered (dq ++ [(get_header_time w msg, msg)]) ->
  exists st',
    bagger_callback w msg topic st = Raise IndexError st' /\
    topic_messages st' !! topic = Some [] /\
    subscriber_list st' = subscriber_list st.
Proof.
  intros Hs Hrun Hdq Hidx Hentry Hlimit Hord.
  destruct (deque_duration_snoc dq (get_header_time w msg, msg)) as [d0 Hd0].
  rewrite (bagger_callback_eq st w msg topic dq index entry d0) by done.
  rewrite Hrun. cbn [negb].
  rewrite popleft_while_negative; [|unfold duration_of_secs; lia | done | done].
  simpl. eexists. split; [reflexivity|]. simpl.
  split; [apply lookup_insert_eq | done].
Qed.

(** X8.  Once the node is shut down a delivery is still buffered but
    nothing is popped, whatever the stream time: the deque is the old
    one with the new message at its end. *)
Theorem shutdown_stops_trimming (st : Bagger) (w : World) (msg : Msg)
    (topic : string) (dq : list Stamped) (index : nat) (entry : TopicEntry) :
  streaming st = true ->
  is_shutdown w = true ->
  topic_messages st !! topic = Some dq ->
  list_index topic (topic_list st) = Some index ->
  subscriber_list st !! index = Some entry ->
  exists st',
    bagger_callback w msg topic st = Ok tt st' /\
    topic_messages st' !! topic = Some (dq ++ [(get_header_time w msg, msg)]).
Proof.
  intros Hs Hdown Hdq Hidx Hentry.
  destruct (deque_duration_snoc dq (get_header_time w msg, msg)) as [d0 Hd0].
  rewrite (bagger_callback_eq st w msg topic dq index entry d0) by done.
  rewrite Hdown. cbn [negb].
  assert (forall limit d l, popleft_while false limit d l = inr l) as ->.
  { intros limit d l. destruct l; simpl; by rewrite andb_false_r. }
  simpl. rewrite subscribe_eq. eexists. split; [reflexivity|].
  simpl. apply lookup_insert_eq.
Qed.

(** X9.  A delivery on a topic that has no deque raises KeyError; the
    iteration counter has been advanced by then and nothing else is
    changed. *)
Theorem unknown_topic_raises (st : Bagger) (w : World) (msg : Msg) (topic : string) :
  streaming st = true ->
  topic_messages st !! topic = None ->
  bagger_callback w msg topic st
  = Raise KeyError (set_iteration_count (S (iteration_count st)) st).
Proof.
  intros Hs Hnone. unfold bagger_callback.
  erewrite bind_Ok; [|reflexivity]. rewrite Hs. cbn [negb].
  erewrite bind_Ok; [|reflexivity].
  unfold bind, deque_of. simpl. by rewrite Hnone.
Qed.

(** ** More on the dump *)

Lemma dump_index_everything (req : Request) (topic : string) (s : Bagger) :
  bag_everything (req_bag_time req) = true ->
  dump_index req topic s = Ok 0%Z (set_bag_report report_all s).
Proof.
  intros Hall. unfold dump_index. destruct (req_bag_time req); [|done].
  by rewrite Hall.
Qed.

Lemma bag_topic_Ok_has_deque (w : World) (req : Request) (entry : TopicEntry)
    (s s' : Bagger) :
  topic_status entry = true ->
  bag_topic w req entry s = Ok tt s' ->
  is_Some (topic_messages s !! topic_name entry).
Proof.
  intros Hstatus Hrun. unfold bag_topic in Hrun.
  rewrite Hstatus in Hrun. cbn [negb] in Hrun.
  apply bind_Ok_inv in Hrun as (index & s1 & Hindex & Hrun).
  pose proof (preserves_dump_index topic_messages req (topic_name entry)
                ltac:(done) s) as H1.
  rewrite Hindex in H1. simpl in H1. rewrite <- H1.
  apply bind_Ok_inv in Hrun as (dq & s2 & Hdq & _).
  unfold deque_of in Hdq.
  destruct (topic_messages s1 !! topic_name entry); [by eexists | done].
Qed.

Lemma exported_all_insert (m : gmap string (list Stamped)) (l : list TopicEntry)
    (name : string) (dq : list Stamped) :
  name ∉ topic_name <$> subscribed l ->
  exported_all (<[name := dq]> m) l = exported_all m l.
Proof.
  unfold exported_all. intros Hnot. f_equal.
  apply list_fmap_ext. intros i e He.
  rewrite lookup_insert_ne; [done|]. intros ->. apply Hnot.
  apply list_elem_of_fmap. exists e. split; [done|]. by eapply list_elem_of_lookup_2.
Qed.

(** The loop of a dump of everything that goes through. *)
Lemma bag_topics_export_all (w : World) (req : Request) (l : list TopicEntry) :
  bag_everything (req_bag_time req) = true ->
  forall (s s' : Bagger) (g : Bag),
    NoDup (topic_name <$> subscribed l) ->
    bag s = Some g ->
    for_each (bag_topic w req) l s = Ok tt s' ->
    exists g', bag s' = Some g' /\
               bag_name g' = bag_name g /\
               bag_entries g' = bag_entries g ++ exported_all (topic_messages s) l.
Proof.
  intros Hall. induction l as [|e l IH]; intros s s' g Hdup Hg Hrun; simpl in Hrun.
  - unfold ret in Hrun. simplify_eq. exists g. unfold exported_all. simpl.
    by rewrite app_nil_r.
  - apply bind_Ok_inv in Hrun as ([] & s1 & Hentry & Hrest).
    destruct (topic_status e) eqn:Hstatus.
    + unfold subscribed in Hdup. rewrite filter_cons_True in Hdup by done.
      rewrite fmap_cons in Hdup. apply NoDup_cons in Hdup as [Hnot Hdup].
      destruct (bag_topic_Ok_has_deque _ _ _ _ _ Hstatus Hentry) as [dq Hdq].
      destruct (bag_topic_Ok w req e s s1 dq g Hstatus Hdq Hg Hentry)
        as (index & s0 & g1 & Hindex & _ & Hg1 & Hname1 & Hentries1 & Hmsgs1).
      rewrite dump_index_everything in Hindex by done. simplify_eq.
      destruct (IH s1 s' g1 Hdup Hg1 Hrest) as (g' & Hg' & Hname & Hentries).
      exists g'. split; [done|]. split; [congruence|].
      rewrite Hentries, Hentries1, Hmsgs1, exported_all_insert by done.
      unfold exported_all, subscribed. rewrite filter_cons_True by done.
      rewrite fmap_cons. simpl. rewrite Hdq. simpl. by rewrite <- app_assoc.
    + rewrite bag_topic_unsubscribed in Hentry by done. simplify_eq.
      unfold subscribed in Hdup. rewrite filter_cons_False in Hdup by congruence.
      destruct (IH s1 s' g Hdup Hg Hrest) as (g' & Hg' & Hname & Hentries).
      exists g'. split; [done|]. split; [done|].
      rewrite Hentries. unfold exported_all, subscribed.
      by rewrite filter_cons_False by congruence.
Qed.

Lemma start_bagging_Ok_inv (w : World) (req : Request) (st st' : Bagger) (t : Text) :
  start_bagging w req st = Ok t st' ->
  exists st3 g,
    bag_openable w = true /\
    for_each (bag_topic w req) (subscriber_list st) (dump_start w req st) = Ok tt st3 /\
    bag st3 = Some g /\
    st' = set_streaming true (set_bag (closed_bag g) st3).
Proof.
  intros Hrun. rewrite start_bagging_eq in Hrun.
  destruct (bag_openable w); [|done].
  destruct (for_each (bag_topic w req) (subscriber_list st) (dump_start w req st))
    as [[] st3|e st3]; [|done].
  destruct (bag st3) as [g|] eqn:Hg; [|done].
  destruct (bagger_status st3); simpl in Hrun; simplify_eq.
  by exists st3, g.
Qed.

(** X10.  A dump of everything (no duration, or zero) that returns has
    written to the bag the whole deque of every subscribed entry, in
    the order of [subscriber_list] and oldest message first within a
    topic, each message under its topic and its own stamp; the bag is
    closed and bears the requested name, or the date and time when none
    was given.  The names of the subscribed entries are taken to be
    distinct. *)
Theorem dump_of_everything_is_complete (w : World) (req : Request)
    (st st' : Bagger) (t : Text) :
  bag_everything (req_bag_time req) = true ->
  NoDup (topic_name <$> subscribed (subscriber_list st)) ->
  start_bagging w req st = Ok t st' ->
  bag st' = Some (mkBag (if no_bag_name (req_bag_name req) then datetime w
                         else default "" (req_bag_name req))
                        (exported_all (topic_messages st) (subscriber_list st))
                        true).
Proof.
  intros Hall Hdup Hrun.
  apply start_bagging_Ok_inv in Hrun as (st3 & g & _ & Hloop & Hg & ->).
  eapply (bag_topics_export_all w req _ Hall) in Hloop
    as (g' & Hg' & Hname & Hentries); [|done|reflexivity].
  simplify_eq. simpl. unfold closed_bag. by rewrite Hname, Hentries.
Qed.

(** ** What a dump does to the deques *)

Lemma only_emptied_stable (st0 : Bagger) :
  bookkeeping_stable (only_emptied st0) /\ clearing_stable (only_emptied st0).
Proof.
  split; [by repeat split|].
  intros st topic H _ other. simpl.
  destruct (decide (topic = other)) as [->|Hne].
  - right. apply lookup_insert_eq.
  - rewrite lookup_insert_ne by done. apply H.
Qed.

(** X11.  A dump never alters a deque except to empty it, whether it
    returns or raises; and when the bag file cannot be opened it raises
    having done nothing but close the gate. *)
Theorem dump_only_empties (w : World) (req : Request) (st : Bagger) :
  only_emptied st (final_state (start_bagging w req st)) /\
  (bag_openable w = false ->
   start_bagging w req st = Raise IOError (set_streaming false st)).
Proof.
  split.
  - destruct (only_emptied_stable st) as [Hbook Hclear].
    apply (maintains_start_bagging _ w req Hbook Hclear). by left.
  - intros Hopen. by rewrite start_bagging_eq, Hopen.
Qed.

(** X12.  After a dump that returned, the count of buffered messages is
    zero, provided every message buffered before was on a topic with a
    subscribed entry: the next status would report no message. *)
Theorem dump_resets_message_count (w : World) (req : Request)
    (st st' : Bagger) (t : Text) :
  start_bagging w req st = Ok t st' ->
  (forall topic dq, topic_messages st !! topic = Some dq -> dq <> [] ->
     exists e, e ∈ subscriber_list st /\ topic_name e = topic /\ topic_status e = true) ->
  get_total_message_count st' = Ok 0%nat st'.
Proof.
  intros Hrun Hsub.
  pose proof (proj1 (only_emptied_stable st)) as Hbook.
  pose proof (maintains_start_bagging _ w req Hbook (proj2 (only_emptied_stable st))
                st ltac:(by left)) as Honly.
  rewrite Hrun in Honly. simpl in Honly.
  apply start_bagging_Ok_inv in Hrun as (st3 & g & _ & Hloop & Hg & ->).
  unfold get_total_message_count, read. f_equal.
  apply total_messages_empty. simpl. intros topic dq Hdq.
  specialize (Honly topic). simpl in Honly.
  destruct Honly as [Hsame|Hempty]; [|congruence].
  destruct dq as [|x dq]; [done|]. exfalso.
  destruct (Hsub topic (x :: dq)) as (e & He & <- & Hstatus); [congruence | done|].
  pose proof (bag_topics_empty_subscribed _ _ _ _ _ e Hloop He Hstatus). congruence.
Qed.

(** ** After a dump *)

Lemma start_bagging_keeps_subscriber_list (w : World) (req : Request) (st : Bagger) :
  subscriber_list (final_state (start_bagging w req st)) = subscriber_list st /\
  topic_list (final_state (start_bagging w req st)) = topic_list st.
Proof.
  apply (maintains_start_bagging
           (fun s => subscriber_list s = subscriber_list st /\ topic_list s = topic_list st)
           w req); [repeat split; by destruct_and! | by intros s topic H _ | done].
Qed.

Lemma start_bagging_keeps_configuration (w : World) (req : Request) (st : Bagger) :
  configuration (final_state (start_bagging w req st)) = configuration st.
Proof.
  destruct (configuration_stable (configuration st)) as [Hbook Hbuf].
  by apply (maintains_start_bagging _ w req Hbook (buffer_clearing_stable _ Hbuf)).
Qed.

(** X13.  After a dump that returned the node ingests again: the next
    message on a subscribed topic is buffered, and the deque holds that
    message alone.  The node is taken to be in order, with stream times
    that are not negative, and not shut down. *)
Theorem ingestion_resumes_after_dump (w w2 : World) (req : Request)
    (st st' : Bagger) (t : Text) (msg : Msg) (e : TopicEntry) :
  well_formed st ->
  Forall (fun t => 0 <= t)%Z (topic_stream_time <$> subscriber_list st) ->
  start_bagging w req st = Ok t st' ->
  e ∈ subscriber_list st ->
  topic_status e = true ->
  is_shutdown w2 = false ->
  exists st'',
    bagger_callback w2 msg (topic_name e) st' = Ok tt st'' /\
    topic_messages st'' !! topic_name e = Some [(get_header_time w2 msg, msg)].
Proof.
  intros Hwf Htimes Hrun He Hstatus Hrun2.
  pose proof (start_bagging_cases w req st) as Hcases.
  pose proof (start_bagging_keeps_subscriber_list w req st) as [Hsubs Htl].
  rewrite Hrun in Hcases, Hsubs, Htl. simpl in Hsubs, Htl.
  destruct Hcases as (_ & Hs & _).
  assert (topic_messages st' !! topic_name e = Some []) as Hdq.
  { apply start_bagging_Ok_inv in Hrun as (st3 & g & _ & Hloop & Hg & ->). simpl.
    by eapply bag_topics_empty_subscribed. }
  destruct Hwf as [Hl _].
  assert (topic_name e ∈ topic_list st) as Hin.
  { rewrite Hl. apply list_elem_of_fmap. by exists e. }
  destruct (list_index_elem_of _ _ Hin) as (i & Hidx & Hi).
  rewrite Hl, list_lookup_fmap in Hi.
  destruct (subscriber_list st !! i) as [entry|] eqn:Hentry; [|done].
  assert (0 <= topic_stream_time entry)%Z as Hlimit.
  { rewrite Forall_forall in Htimes. apply Htimes.
    apply list_elem_of_fmap. exists entry. split; [done|].
    by eapply list_elem_of_lookup_2. }
  rewrite <- Htl in Hidx. rewrite <- Hsubs in Hentry.
  destruct (bagger_callback_step st' w2 msg (topic_name e) [] i entry
              Hs Hrun2 Hdq Hidx Hentry Hlimit)
    as (st'' & dq' & _ & _ & Hcall & _ & _ & _ & _ & Hdq' & Hsuf & Hlast & _).
  exists st''. split; [done|].
  cut (dq' = [(get_header_time w2 msg, msg)]); [by intros <-|].
  simpl in Hsuf. destruct Hsuf as [pre Hpre].
  destruct pre as [|x pre]; [by simplify_eq|].
  simpl in Hpre. injection Hpre as _ Hnil.
  symmetry in Hnil. apply app_eq_nil in Hnil as [_ ->]. done.
Qed.

Lemma bag_topics_on_empty_deques (w : World) (req : Request) (d : Q)
    (l : list TopicEntry) (s : Bagger) :
  req_bag_time req = Some d ->
  Qeq_bool d 0 = false ->
  (forall e, e ∈ l -> topic_status e = true ->
             topic_messages s !! topic_name e = Some []) ->
  (exists e, e ∈ l /\ topic_status e = true) ->
  for_each (bag_topic w req) l s = Raise IndexError s.
Proof.
  intros Htime Hpos. induction l as [|e l IH]; intros Hempty (e0 & Hin & Hs0).
  - by apply elem_of_nil in Hin.
  - simpl. destruct (topic_status e) eqn:Hstatus.
    + apply bind_Raise_eq. unfold bag_topic. rewrite Hstatus. cbn [negb].
      apply bind_Raise_eq. unfold dump_index. rewrite Htime. simpl. rewrite Hpos.
      unfold get_time_index. apply bind_Raise_eq.
      rewrite (get_topic_duration_eq _ _ []); [done|].
      apply Hempty; [left | done].
    + erewrite bind_Ok; [|by apply bag_topic_unsubscribed].
      apply IH.
      * intros e1 He1. apply Hempty. by right.
      * exists e0. split; [|done].
        apply elem_of_cons in Hin as [->|Hin]; [congruence | done].
Qed.

(** X14.  Asking for the last seconds right after a dump that returned
    fails: every subscribed deque is empty, so the dump raises
    IndexError at the first subscribed entry, with the new bag opened
    and empty and the gate left closed. *)
Theorem dump_after_dump_raises (w w2 : World) (req req2 : Request) (d : Q)
    (st st' : Bagger) (t : Text) (e : TopicEntry) :
  start_bagging w req st = Ok t st' ->
  e ∈ subscriber_list st ->
  topic_status e = true ->
  bag_openable w2 = true ->
  req_bag_time req2 = Some d ->
  ~ (d == 0)%Q ->
  exists st'',
    start_bagging w2 req2 st' = Raise IndexError st'' /\
    streaming st'' = false /\
    bag_entries <$> bag st'' = Some [].
Proof.
  intros Hrun He Hstatus Hopen Htime Hpos.
  pose proof (start_bagging_keeps_subscriber_list w req st) as [Hsubs _].
  rewrite Hrun in Hsubs. simpl in Hsubs.
  assert (forall e1, e1 ∈ subscriber_list st -> topic_status e1 = true ->
            topic_messages st' !! topic_name e1 = Some []) as Hempty.
  { intros e1 He1 Hs1.
    apply start_bagging_Ok_inv in Hrun as (st3 & g & _ & Hloop & Hg & ->). simpl.
    by eapply bag_topics_empty_subscribed. }
  rewrite start_bagging_eq, Hopen, Hsubs.
  rewrite (bag_topics_on_empty_deques w2 req2 d); try done.
  - by eexists.
  - destruct (Qeq_bool d 0) eqn:Hz; [|done]. by apply Qeq_bool_iff in Hz.
  - by exists e.
Qed.

(** ** [subscribe_loop] *)

Lemma subscribe_entries_nothing (w : World) (l : list TopicEntry) :
  (forall e, e ∈ l -> topic_status e = false -> resolvable w (topic_name e) = false) ->
  subscribe_entries w l = (l, 0%nat).
Proof.
  induction l as [|e l IH]; intros Hno; [done|].
  simpl. rewrite IH by (intros e1 He1; apply Hno; by right).
  destruct (topic_status e) eqn:Hs; simpl; [done|].
  by rewrite (Hno e) by (done || left).
Qed.

Lemma subscribe_nothing (w : World) (st : Bagger) :
  (forall e, e ∈ subscriber_list st -> topic_status e = false ->
             resolvable w (topic_name e) = false) ->
  subscribe w st = Ok tt st.
Proof.
  intros Hno. rewrite subscribe_eq, subscribe_entries_nothing by done.
  destruct st. simpl. unfold set_successful_subscription_count, set_subscriber_list.
  simpl. by rewrite Nat.add_0_r.
Qed.

Lemma subscribe_entries_progress (w : World) (l : list TopicEntry) :
  (exists e, e ∈ l /\ topic_status e = false /\ resolvable w (topic_name e) = true) ->
  (0 < (subscribe_entries w l).2)%nat.
Proof.
  induction l as [|e l IH]; intros (e0 & Hin & Hs & Hr); [by apply elem_of_nil in Hin|].
  simpl. destruct (subscribe_entries w l) as [l' n] eqn:Hrec.
  apply elem_of_cons in Hin as [->|Hin].
  - rewrite Hs, Hr. simpl. lia.
  - assert (0 < n)%nat by (apply IH; by exists e0).
    destruct (negb (topic_status e) && resolvable w (topic_name e)); simpl; lia.
Qed.

(** X15.  [subscribe_loop] does not end while no subscription has
    succeeded, the node is not shut down and none of the unsubscribed
    topics resolves: whatever the bound on the iterations, it is
    reached, with the attributes unchanged.  An empty list of topics is
    such a case.  A shutdown is the way out: the loop then returns at
    once, with nothing subscribed. *)
Theorem subscribe_loop_blocks (worlds : nat -> World) (st : Bagger) :
  successful_subscription_count st = 0%nat ->
  (forall j e, e ∈ subscriber_list st -> topic_status e = false ->
               resolvable (worlds j) (topic_name e) = false) ->
  (forall i fuel, (forall j, (i <= j)%nat -> is_shutdown (worlds j) = false) ->
                  subscribe_loop fuel worlds i st = None) /\
  (forall i fuel, is_shutdown (worlds i) = true ->
                  subscribe_loop (S fuel) worlds i st = Some (Ok tt st)).
Proof.
  intros Hcount Hno. split.
  - intros i fuel. revert i. induction fuel as [|fuel IH]; intros i Hrun; [done|].
    cbn [subscribe_loop]. rewrite Hcount, (Hrun i) by lia. simpl andb. cbv iota.
    rewrite subscribe_nothing by (intros; by apply Hno).
    apply IH. intros j Hj. apply Hrun. lia.
  - intros i fuel Hdown. cbn [subscribe_loop]. rewrite Hdown. by rewrite andb_false_r.
Qed.

(** X16.  [subscribe_loop] returns as soon as a topic resolves: when
    nothing resolves during the first [n] iterations and an unsubscribed
    topic does in the next one, the node not being shut down, any bound
    of at least [n + 2] iterations suffices, and the loop returns with
    the attributes [subscribe] left in that iteration and a counter
    that is not zero. *)
Theorem subscribe_loop_returns (worlds : nat -> World) (st : Bagger) (i n : nat) :
  successful_subscription_count st = 0%nat ->
  (forall j, (j <= n)%nat -> is_shutdown (worlds (i + j)%nat) = false) ->
  (forall j e, (j < n)%nat -> e ∈ subscriber_list st -> topic_status e = false ->
               resolvable (worlds (i + j)%nat) (topic_name e) = false) ->
  (exists e, e ∈ subscriber_list st /\ topic_status e = false /\
             resolvable (worlds (i + n)%nat) (topic_name e) = true) ->
  forall fuel, (n + 2 <= fuel)%nat ->
  exists st',
    subscribe (worlds (i + n)%nat) st = Ok tt st' /\
    subscribe_loop fuel worlds i st = Some (Ok tt st') /\
    (0 < successful_subscription_count st')%nat.
Proof.
  intros Hcount. revert i. induction n as [|n IH]; intros i Hrun Hno Hyes fuel Hfuel.
  - rewrite Nat.add_0_r in *. eexists. split; [apply subscribe_eq|].
    pose proof (subscribe_entries_progress _ _ Hyes) as Hpos.
    destruct fuel as [|[|fuel]]; [lia | lia |].
    cbn [subscribe_loop]. rewrite Hcount.
    specialize (Hrun 0%nat ltac:(lia)). rewrite Nat.add_0_r in Hrun. rewrite Hrun.
    simpl andb. cbv iota. rewrite subscribe_eq. simpl successful_subscription_count.
    destruct (subscribe_entries (worlds i) (subscriber_list st)).2 as [|k] eqn:Hk; [lia|].
    rewrite Hcount. simpl. split; [done | lia].
  - destruct fuel as [|fuel]; [lia|].
    destruct (IH (S i)) with (fuel := fuel) as (st' & Hsub & Hloop & Hpos).
    + intros j Hj. replace (S i + j)%nat with (i + S j)%nat by lia. apply Hrun. lia.
    + intros j e Hj. replace (S i + j)%nat with (i + S j)%nat by lia. apply Hno. lia.
    + replace (S i + n)%nat with (i + S n)%nat by lia. exact Hyes.
    + lia.
    + replace (S i + n)%nat with (i + S n)%nat in Hsub by lia.
      exists st'. split; [done|]. split; [|done].
      cbn [subscribe_loop]. rewrite Hcount.
      specialize (Hrun 0%nat ltac:(lia)). rewrite Nat.add_0_r in Hrun. rewrite Hrun.
      simpl andb. cbv iota.
      rewrite subscribe_nothing; [done|].
      intros e He Hs. specialize (Hno 0%nat e ltac:(lia) He Hs).
      by rewrite Nat.add_0_r in Hno.
Qed.

(** X17.  [__init__] returns a node ready to ingest when one of the
    configured topics resolves from the start and the node is not shut
    down: two iterations of the loop suffice, the node streams, its
    lists and dictionary agree, the counter equals the number of
    subscribed entries and is not zero, and nothing is buffered. *)
Theorem init_subscribes (worlds : nat -> World) (stream_time : Z)
    (cfg : list (string * option Z)) (c : string * option Z) :
  is_shutdown (worlds 0%nat) = false ->
  c ∈ cfg ->
  resolvable (worlds 0%nat) c.1 = true ->
  forall fuel, (2 <= fuel)%nat ->
  exists st,
    init fuel worlds stream_time cfg = Some (Ok tt st) /\
    streaming st = true /\
    well_formed st /\
    count_agrees st /\
    (0 < successful_subscription_count st)%nat /\
    get_total_message_count st = Ok 0%nat st.
Proof.
  intros Hrun Hc Hres fuel Hfuel.
  set (st0 := make_dicts stream_time cfg).
  set (st := final_state (subscribe (worlds 0%nat) st0)).
  assert (0 < successful_subscription_count st)%nat as Hpos.
  { unfold st. rewrite subscribe_eq. simpl.
    apply subscribe_entries_progress.
    exists (mkTopic c.1 (default stream_time c.2) false).
    split; [|done]. apply list_elem_of_fmap. by exists c. }
  exists st. split; [|split; [|split; [|split; [|split; [done|]]]]].
  - destruct fuel as [|[|fuel]]; [lia | lia |].
    unfold init. fold st0. cbn [subscribe_loop].
    change (successful_subscription_count st0) with 0%nat.
    rewrite Hrun. simpl andb. cbv iota.
    assert (subscribe (worlds 0%nat) st0 = Ok tt st) as ->
      by (unfold st; by rewrite subscribe_eq).
    destruct (successful_subscription_count st) as [|k] eqn:Hk; [lia|]. done.
  - unfold st. by rewrite subscribe_eq.
  - eapply well_formed_configuration; [|apply (make_dicts_wf stream_time cfg)].
    symmetry. apply (subscribe_keeps_configuration (worlds 0%nat) st0).
  - apply (subscribe_keeps_count (worlds 0%nat) st0). apply make_dicts_count.
  - unfold get_total_message_count, read. f_equal.
    apply total_messages_empty. intros topic dq.
    unfold st. rewrite (subscribe_keeps_deques (worlds 0%nat) st0).
    unfold st0, make_dicts. simpl. rewrite make_dicts_deques.
    case_decide; [congruence | by rewrite lookup_empty].
Qed.

(** ** [SliceableDeque] *)

Lemma stride_from_lookup {A} (step : nat) (l : list A) :
  (1 <= step)%nat ->
  forall skip j, stride_from step skip l !! j = l !! (skip + j * step)%nat.
Proof.
  intros Hstep. induction l as [|x l IH]; intros skip j; [done|].
  destruct skip as [|skip]; simpl.
  - destruct j as [|j]; [done|]. simpl. rewrite IH.
    replace (step + j * step)%nat with (S (step - 1 + j * step)) by lia. done.
  - by rewrite IH.
Qed.




(** ** What a delivery leaves alone *)

Lemma preserves_trim {B} (proj : Bagger -> B) (w : World) (topic : string)
    (limit d : Duration) :
  (forall dq st, proj (set_topic_messages (<[topic := dq]> (topic_messages st)) st)
                 = proj st) ->
  preserves proj (trim w topic limit d).
Proof.
  intros Hstore. unfold trim.
  apply preserves_bind; [apply preserves_deque_of | intros dq].
  destruct (popleft_while (negb (is_shutdown w)) limit d dq) as [[e dq']|dq'].
  - apply preserves_bind; [apply preserves_update; intros; apply Hstore|].
    intros _. apply preserves_raise.
  - apply preserves_update; intros; apply Hstore.
Qed.

(** X21.  A delivery on one topic touches the deque of that topic, the
    iteration counter and, through [subscribe], the subscription states
    and their counter, and nothing else: the deques of the other topics,
    the gate, the bag, the report and the status are the same
    afterwards, whether the callback returns or raises. *)
Theorem delivery_touches_one_deque (w : World) (msg : Msg) (topic other : string)
    (st : Bagger) :
  other <> topic ->
  let st' := final_state (bagger_callback w msg topic st) in
  topic_messages st' !! other = topic_messages st !! other /\
  streaming st' = streaming st /\
  bag st' = bag st /\
  bag_report st' = bag_report st /\
  bagger_status st' = bagger_status st.
Proof.
  intros Hne. simpl.
  set (proj := fun s => (topic_messages s !! other, streaming s, bag s, bag_report s,
                         bagger_status s)).
  assert (preserves proj (bagger_callback w msg topic)) as Hkeep.
  { assert (forall dq s, proj (set_topic_messages (<[topic := dq]> (topic_messages s)) s)
                         = proj s) as Hstore.
    { intros dq s. unfold proj. simpl. by rewrite lookup_insert_ne. }
    unfold bagger_callback.
    apply preserves_bind; [apply preserves_read | intros s].
    destruct (negb s); [apply preserves_ret|].
    apply preserves_bind; [by apply preserves_update | intros _].
    apply preserves_bind; [apply preserves_deque_of | intros dq].
    apply preserves_bind; [apply preserves_update; intros; apply Hstore | intros _].
    apply preserves_bind; [apply preserves_get_topic_duration | intros d].
    apply preserves_bind; [apply preserves_read | intros tl].
    apply preserves_bind; [apply preserves_lookup_or_raise | intros index].
    apply preserves_bind; [apply preserves_read | intros subs].
    apply preserves_bind; [apply preserves_lookup_or_raise | intros entry].
    apply preserves_bind; [by apply preserves_trim | intros _].
    intros s0. by rewrite subscribe_eq. }
  specialize (Hkeep st). unfold proj in Hkeep. by simplify_eq.
Qed.

(** ** The further properties at concrete inputs *)

Lemma fed_deques :
  topic_messages (Scenario.fed [0; 1; 2; 3]%Z)
  = <["/odom" := [Fixture.at_sec 0; Fixture.at_sec 1; Fixture.at_sec 2; Fixture.at_sec 3]]>
      (<["/imu" := []]> ∅).
Proof. vm_compute; reflexivity. Defined.

Lemma fed_well_formed : well_formed (Scenario.fed [0; 1; 2; 3]%Z).
Proof.
  split; [vm_compute; reflexivity|].
  intros topic Hin.
  assert (topic_list (Scenario.fed [0; 1; 2; 3]%Z) = ["/odom"; "/imu"]) as Htl
    by (vm_compute; reflexivity).
  rewrite Htl in Hin. rewrite !elem_of_cons in Hin.
  destruct Hin as [->|[->|Hin]];
    [eexists; vm_compute; reflexivity | eexists; vm_compute; reflexivity
    | by apply elem_of_nil in Hin].
Defined.

Lemma fed_stream_times :
  Forall (fun t => 0 <= t)%Z
         (topic_stream_time <$> subscriber_list (Scenario.fed [0; 1; 2; 3]%Z)).
Proof. vm_compute. repeat constructor; discriminate. Defined.

Lemma subscription_count_is_kept_witness :
  count_agrees (final_state (subscribe Scenario.world (Scenario.fed [0; 1; 2; 3]%Z))) /\
  count_agrees (final_state (bagger_callback Scenario.world (Scenario.stamped_msg 4)
                               "/odom" (Scenario.fed [0; 1; 2; 3]%Z))) /\
  count_agrees (final_state (start_bagging Scenario.world (Scenario.request 1)
                               (Scenario.fed [0; 1; 2; 3]%Z))).
Proof.
  apply (subscription_count_is_kept Scenario.world (Scenario.stamped_msg 4) "/odom"
           (Scenario.request 1) (Scenario.fed [0; 1; 2; 3]%Z)).
  vm_compute; reflexivity.
Defined.

Lemma deliveries_return_witness :
  exists st',
    for_each deliver [(Scenario.world, Scenario.stamped_msg 4, "/odom");
                      (Scenario.world, Scenario.stamped_msg 5, "/odom")]
             (Scenario.fed [0; 1; 2; 3]%Z) = Ok tt st' /\
    well_formed st' /\
    configuration st' = configuration (Scenario.fed [0; 1; 2; 3]%Z).
Proof.
  apply (deliveries_return (Scenario.fed [0; 1; 2; 3]%Z)).
  - exact fed_well_formed.
  - exact fed_stream_times.
  - repeat constructor; vm_compute; repeat constructor.
Defined.

Lemma retention_keeps_the_window_witness :
  exists st',
    bagger_callback Scenario.world (Scenario.stamped_msg 18) "/odom"
                    (Scenario.fed [0; 6; 12]%Z) = Ok tt st' /\
    topic_messages st' !! "/odom"
    = Some (within_window (duration_of_secs 10) (Scenario.sec 18)
              ([Fixture.at_sec 6; Fixture.at_sec 12] ++ [Fixture.at_sec 18])).
Proof.
  apply (retention_keeps_the_window (Scenario.fed [0; 6; 12]%Z) Scenario.world
           (Scenario.stamped_msg 18) "/odom" [Fixture.at_sec 6; Fixture.at_sec 12]
           0%nat Fixture.odom).
  - vm_compute; reflexivity.
  - vm_compute; reflexivity.
  - vm_compute; reflexivity.
  - vm_compute; reflexivity.
  - vm_compute; reflexivity.
  - simpl; lia.
  - intros i j x y Hi Hj Hle.
    destruct i as [|[|[|i]]], j as [|[|[|j]]]; simpl in Hi, Hj;
      try discriminate; try lia;
      injection Hi as <-; injection Hj as <-; vm_compute; discriminate.
Defined.

Lemma negative_stream_time_raises_witness :
  exists st',
    bagger_callback Scenario.world (Scenario.stamped_msg 3) "/odom" Fixture.negative
      = Raise IndexError st' /\
    topic_messages st' !! "/odom" = Some [] /\
    subscriber_list st' = subscriber_list Fixture.negative.
Proof.
  apply (negative_stream_time_raises Fixture.negative Scenario.world
           (Scenario.stamped_msg 3) "/odom" [] 0%nat (mkTopic "/odom" (-5) true)).
  - vm_compute; reflexivity.
  - vm_compute; reflexivity.
  - vm_compute; reflexivity.
  - vm_compute; reflexivity.
  - vm_compute; reflexivity.
  - simpl; lia.
  - intros i j x y Hi Hj Hle.
    destruct i as [|i], j as [|j]; simpl in Hi, Hj; try discriminate.
    injection Hi as <-; injection Hj as <-. vm_compute; discriminate.
Defined.

Lemma shutdown_stops_trimming_witness :
  exists st',
    bagger_callback Fixture.down (Scenario.stamped_msg 50) "/odom"
                    (Scenario.fed [0; 1; 2; 3]%Z) = Ok tt st' /\
    topic_messages st' !! "/odom"
    = Some ([Fixture.at_sec 0; Fixture.at_sec 1; Fixture.at_sec 2; Fixture.at_sec 3]
            ++ [(get_header_time Fixture.down (Scenario.stamped_msg 50),
                 Scenario.stamped_msg 50)]).
Proof.
  apply (shutdown_stops_trimming (Scenario.fed [0; 1; 2; 3]%Z) Fixture.down
           (Scenario.stamped_msg 50) "/odom"
           [Fixture.at_sec 0; Fixture.at_sec 1; Fixture.at_sec 2; Fixture.at_sec 3]
           0%nat Fixture.odom); vm_compute; reflexivity.
Defined.

Lemma unknown_topic_raises_witness :
  bagger_callback Scenario.world (Scenario.stamped_msg 4) "/gps"
                  (Scenario.fed [0; 1; 2; 3]%Z)
  = Raise KeyError (set_iteration_count
                      (S (iteration_count (Scenario.fed [0; 1; 2; 3]%Z)))
                      (Scenario.fed [0; 1; 2; 3]%Z)).
Proof.
  apply (unknown_topic_raises (Scenario.fed [0; 1; 2; 3]%Z) Scenario.world
           (Scenario.stamped_msg 4) "/gps"); vm_compute; reflexivity.
Defined.

Lemma dump_of_everything_is_complete_witness :
  bag Fixture.dumped
  = Some (mkBag (if no_bag_name (req_bag_name (Scenario.request 0))
                 then datetime Scenario.world
                 else default "" (req_bag_name (Scenario.request 0)))
                (exported_all (topic_messages (Scenario.fed [0; 1; 2; 3]%Z))
                              (subscriber_list (Scenario.fed [0; 1; 2; 3]%Z)))
                true).
Proof.
  apply (dump_of_everything_is_complete Scenario.world (Scenario.request 0)
           (Scenario.fed [0; 1; 2; 3]%Z) Fixture.dumped
           (status_text (Scenario.fed [0; 1; 2; 3]%Z))).
  - vm_compute; reflexivity.
  - vm_compute. apply NoDup_singleton.
  - vm_compute; reflexivity.
Defined.

Lemma dump_resets_message_count_witness :
  get_total_message_count Fixture.dumped = Ok 0%nat Fixture.dumped.
Proof.
  apply (dump_resets_message_count Scenario.world (Scenario.request 0)
           (Scenario.fed [0; 1; 2; 3]%Z) Fixture.dumped
           (status_text (Scenario.fed [0; 1; 2; 3]%Z))).
  - vm_compute; reflexivity.
  - intros topic dq. rewrite fed_deques.
    destruct (decide (topic = "/odom")) as [->|Hodom].
    + intros _ _. exists Fixture.odom.
      split; [vm_compute; left | split; reflexivity].
    + rewrite lookup_insert_ne by done.
      destruct (decide (topic = "/imu")) as [->|Himu].
      * rewrite lookup_insert_eq. intros [= <-] Hne. done.
      * rewrite lookup_insert_ne by done. rewrite lookup_empty. discriminate.
Defined.

Lemma ingestion_resumes_after_dump_witness :
  exists st'',
    bagger_callback Scenario.world (Scenario.stamped_msg 9) (topic_name Fixture.odom)
                    Fixture.dumped = Ok tt st'' /\
    topic_messages st'' !! topic_name Fixture.odom
    = Some [(get_header_time Scenario.world (Scenario.stamped_msg 9),
             Scenario.stamped_msg 9)].
Proof.
  apply (ingestion_resumes_after_dump Scenario.world Scenario.world (Scenario.request 0)
           (Scenario.fed [0; 1; 2; 3]%Z) Fixture.dumped
           (status_text (Scenario.fed [0; 1; 2; 3]%Z))).
  - exact fed_well_formed.
  - exact fed_stream_times.
  - vm_compute; reflexivity.
  - vm_compute; left.
  - reflexivity.
  - reflexivity.
Defined.

Lemma dump_after_dump_raises_witness :
  exists st'',
    start_bagging Scenario.world (Scenario.request 5) Fixture.dumped
      = Raise IndexError st'' /\
    streaming st'' = false /\
    bag_entries <$> bag st'' = Some [].
Proof.
  apply (dump_after_dump_raises Scenario.world Scenario.world (Scenario.request 0)
           (Scenario.request 5) 5 (Scenario.fed [0; 1; 2; 3]%Z) Fixture.dumped
           (status_text (Scenario.fed [0; 1; 2; 3]%Z)) Fixture.odom).
  - vm_compute; reflexivity.
  - vm_compute; left.
  - reflexivity.
  - reflexivity.
  - reflexivity.
  - intros H. vm_compute in H. discriminate.
Defined.

Lemma subscribe_loop_blocks_witness :
  subscribe_loop 5 (Fixture.always Fixture.quiet) 0 Fixture.configured = None.
Proof.
  refine (proj1 (subscribe_loop_blocks (Fixture.always Fixture.quiet)
                   Fixture.configured _ _) 0%nat 5%nat _).
  - reflexivity.
  - intros j e _ _. reflexivity.
  - intros j _. reflexivity.
Defined.

Lemma subscribe_loop_returns_witness :
  exists st',
    subscribe (Fixture.late (0 + 2)) Fixture.configured = Ok tt st' /\
    subscribe_loop 4 Fixture.late 0 Fixture.configured = Some (Ok tt st') /\
    (0 < successful_subscription_count st')%nat.
Proof.
  apply (subscribe_loop_returns Fixture.late Fixture.configured 0 2).
  - reflexivity.
  - intros j Hj. destruct j as [|[|[|j]]]; [reflexivity.. | lia].
  - intros j e Hj _ _. destruct j as [|[|j]]; [reflexivity.. | lia].
  - exists (mkTopic "/odom" 10 false).
    split; [vm_compute; left | split; reflexivity].
  - lia.
Defined.

Lemma init_subscribes_witness :
  exists st,
    init 2 (Fixture.always Scenario.world) 30 Fixture.config = Some (Ok tt st) /\
    streaming st = true /\
    well_formed st /\
    count_agrees st /\
    (0 < successful_subscription_count st)%nat /\
    get_total_message_count st = Ok 0%nat st.
Proof.
  apply (init_subscribes (Fixture.always Scenario.world) 30 Fixture.config
           ("/odom", Some 10%Z)).
  - reflexivity.
  - left.
  - reflexivity.
  - lia.
Defined.


Lemma delivery_touches_one_deque_witness :
  topic_messages (final_state (bagger_callback Scenario.world (Scenario.stamped_msg 4)
                                 "/odom" (Scenario.fed [0; 1; 2; 3]%Z))) !! "/imu"
  = topic_messages (Scenario.fed [0; 1; 2; 3]%Z) !! "/imu".
Proof.
  refine (proj1 (delivery_touches_one_deque Scenario.world (Scenario.stamped_msg 4)
                   "/odom" "/imu" (Scenario.fed [0; 1; 2; 3]%Z) _)).
  discriminate.
Defined.
